(** * Submission handler of the transcript upload backend (tu-backend/app.py)

    A shallow embedding of [handle_submit] and of the helpers it calls, with
    the remote file store and the spreadsheet made explicit as state, and
    the properties of the handler proved over that embedding.

    Conventions of the embedding.
    - A Python [dict] with string keys is a [gmap string _]; [d.get(k)] is
      the lookup [d !! k] and [d.get(k, v)] is [default v (d !! k)].
    - A Python [str] is a [string], the text in UTF-8; the Python truth value
      of a value that is [None] or a [str] is [truthy].
    - Every call to the file store, to the sheet and to the construction of
      a service client is a [Call]; it may raise, and the handler's own
      temporary file is not modelled.
    - The query of a [files().list] call is the text that the code
      builds, name pasted in as it is, and the store answers with the
      objects that the text, read back by [parse_query], asks for.
    - The code runs on a POSIX host, so [os.path.splitext] is the one of
      [posixpath]. *)

From Stdlib Require Import Ascii String ZArith Lia.
From stdpp Require Import base tactics option list strings gmap.

Open Scope Z_scope.

(** ** Python strings *)

Module PyStr.

(** [s.replace(a, b)] for one-character [a] and [b]. *)
Fixpoint replace (a b : ascii) (s : string) : string :=
  match s with
  | EmptyString => EmptyString
  | String c s' => String (if Ascii.eqb c a then b else c) (replace a b s')
  end.

(** [sep.join(l)]. *)
Fixpoint join (sep : string) (l : list string) : string :=
  match l with
  | [] => ""
  | [x] => x
  | x :: l' => x +:+ sep +:+ join sep l'
  end.

(** [c in s] for a one-character [c]. *)
Fixpoint contains (c : ascii) (s : string) : bool :=
  match s with
  | EmptyString => false
  | String c' s' => Ascii.eqb c' c || contains c s'
  end.

(** [s.rfind(c)]: the highest index of [c] in [s], or [-1]. *)
Fixpoint rfind (c : ascii) (s : string) : Z :=
  match s with
  | EmptyString => -1
  | String c' s' =>
      let r := rfind c s' in
      if 0 <=? r then r + 1 else if Ascii.eqb c' c then 0 else -1
  end.

(** [s[i:]]. *)
Definition drop (i : Z) (s : string) : string :=
  String.substring (Z.to_nat i) (String.length s - Z.to_nat i) s.

(** [s[i:i+1]]. *)
Definition at_ (i : Z) (s : string) : string :=
  String.substring (Z.to_nat i) 1 s.

(** [repr(s)] of a string that holds no quote, backslash or non-printable
    character, which is all the handler ever prints. *)
Definition repr (s : string) : string := "'" +:+ s +:+ "'".

(** [str(l)] of a list of such strings, as an f-string prints it. *)
Definition repr_list (l : list string) : string :=
  "[" +:+ join ", " (map repr l) +:+ "]".

End PyStr.

(** The truth value of [None] or a [str]. *)
Definition truthy (v : option string) : bool :=
  match v with
  | Some (String _ _) => true
  | _ => false
  end.

(** [posixpath.splitext(p)[1]]: the loop of [genericpath._splitext], which
    skips the leading dots of the last path component.  [n] bounds the
    iterations of the [while]. *)
Fixpoint splitext_scan (p : string) (dotIndex : Z) (n : nat) (filenameIndex : Z)
  : string :=
  match n with
  | O => ""
  | S n' =>
      if filenameIndex <? dotIndex then
        if negb (String.eqb (PyStr.at_ filenameIndex p) ".")
        then PyStr.drop dotIndex p
        else splitext_scan p dotIndex n' (filenameIndex + 1)
      else ""
  end.

Definition splitext_ext (p : string) : string :=
  let sepIndex := PyStr.rfind "/" p in
  let dotIndex := PyStr.rfind "." p in
  if sepIndex <? dotIndex
  then splitext_scan p dotIndex (String.length p) (sepIndex + 1)
  else "".

(** ** The folder name *)

(** [make_folder_name(fields)]. *)
Definition make_folder_name (fields : gmap string string) : string :=
  PyStr.replace "/" "_"
    (PyStr.replace " " "_"
       (PyStr.join "_"
          [ default "Unknown" (fields !! "lastName");
            default "" (fields !! "firstName");
            default "" (fields !! "degreeLevel");
            default "" (fields !! "studentType") ])).

(** The four identity fields as the form carries them. *)
Definition identity_fields (lastName firstName degreeLevel studentType : string)
  : gmap string string :=
  <["lastName" := lastName]>
    (<["firstName" := firstName]>
       (<["degreeLevel" := degreeLevel]>
          (<["studentType" := studentType]> ∅))).

Definition folder_key (lastName firstName degreeLevel studentType : string) : string :=
  make_folder_name (identity_fields lastName firstName degreeLevel studentType).

(** Replacement of spaces and slashes in one field. *)
Definition normalize (s : string) : string :=
  PyStr.replace "/" "_" (PyStr.replace " " "_" s).

(** A field without underscore, space or slash. *)
Definition plain (s : string) : bool :=
  negb (PyStr.contains "_" s) && negb (PyStr.contains " " s)
  && negb (PyStr.contains "/" s).

(** ** The request *)

(** A [werkzeug] [FileStorage]: the client's file name, its MIME type and its
    bytes.  Its truth value is that of its file name. *)
Record FileStorage := {
  filename : string;
  mimetype : string;
  stream : string;
}.

Definition file_truthy (f : option FileStorage) : bool :=
  match f with
  | Some f => truthy (Some (filename f))
  | None => false
  end.

(** [fields] and [files] as the first two lines of the handler build them. *)
Record Submission := {
  fields : gmap string string;
  files : gmap string FileStorage;
}.

(** ** The remote stores *)

Definition BASE_DRIVE_FOLDER_ID : string := "1uBtsAnQrwPMcb-BcYRfE5m_mNA7nTyyW".
Definition FOLDER_MIME : string := "application/vnd.google-apps.folder".

(** An object of the file store. *)
Record DriveFile := {
  f_id : string;
  f_name : string;
  f_mime : string;
  f_parents : list string;
  f_trashed : bool;
  f_bytes : string;
}.

(** The file store is the list of its objects, in the order in which a
    [files().list] call returns them; the sheet is the list of its rows. *)
Record Remote := {
  drive : list DriveFile;
  sheet : list (list string);
}.

(** The identifier the store gives to a new object.  The store chooses it;
    the embedding only uses that it is not empty, is none of the identifiers
    in use and is not the root folder's ([gen_id_fresh], [gen_id_root],
    [gen_id_nonempty]). *)
Definition longest_id (d : list DriveFile) : nat :=
  foldr (fun f n => Nat.max (String.length (f_id f)) n)
        (String.length BASE_DRIVE_FOLDER_ID) d.

Fixpoint id_of_length (n : nat) : string :=
  match n with
  | O => "f"
  | S n' => String "0" (id_of_length n')
  end.

Definition gen_id (d : list DriveFile) : string := id_of_length (longest_id d).

(** A folder named [folder_name] directly under the root, trash apart: what
    the query of [find_folder] asks for when the name reads back as itself
    ([matches_folder_query]). *)
Definition is_folder_named (folder_name : string) (f : DriveFile) : bool :=
  bool_decide (f_name f = folder_name)
  && bool_decide (f_mime f = FOLDER_MIME)
  && bool_decide (BASE_DRIVE_FOLDER_ID ∈ f_parents f)
  && negb (f_trashed f).

(** An object named [file_name] in the folder [folder_id], trash apart: what
    the query of [find_file_in_folder] asks for when the name and the folder
    identifier read back as themselves ([matches_file_query]). *)
Definition is_file_named (folder_id file_name : string) (f : DriveFile) : bool :=
  bool_decide (f_name f = file_name)
  && bool_decide (folder_id ∈ f_parents f)
  && negb (f_trashed f).

(** [res["files"][0]["id"]] when [res.get("files")] is not empty, else [None]. *)
Definition first_id (res : list DriveFile) : option string :=
  match res with
  | [] => None
  | f :: _ => Some (f_id f)
  end.

Definition new_folder (d : list DriveFile) (folder_name : string) : DriveFile :=
  {| f_id := gen_id d; f_name := folder_name; f_mime := FOLDER_MIME;
     f_parents := [BASE_DRIVE_FOLDER_ID]; f_trashed := false; f_bytes := "" |}.

Definition new_file (d : list DriveFile) (folder_id drive_filename : string)
    (file_storage : FileStorage) : DriveFile :=
  {| f_id := gen_id d; f_name := drive_filename; f_mime := mimetype file_storage;
     f_parents := [folder_id]; f_trashed := false; f_bytes := stream file_storage |}.

(** ** Queries

    [find_folder] and [find_file_in_folder] paste the name, as it is,
    between quotes into the query of a [files().list] call, and the store
    reads the query back.  [parse_query] is that reading for the queries of
    the form the code writes: terms joined by [ and ], a text between quotes
    ending at the first quote that no backslash precedes, with [\'] and [\\]
    for a quote and a backslash.  Any other query is one the service
    rejects: the call then raises, which is a fault; where [faults] lets
    such a call complete, the embedding answers that nothing matches. *)
Inductive Term :=
| TName (s : string)
| TMime (s : string)
| TParent (s : string)
| TTrashed (b : bool).

(** The text up to the closing quote, and what follows the quote. *)
Fixpoint read_literal (s : string) : option (string * string) :=
  match s with
  | EmptyString => None
  | String c rest =>
      if Ascii.eqb c "'" then Some (EmptyString, rest)
      else if Ascii.eqb c "\" then
        match rest with
        | String c' rest' =>
            if Ascii.eqb c' "'" || Ascii.eqb c' "\" then
              match read_literal rest' with
              | Some (v, tl) => Some (String c' v, tl)
              | None => None
              end
            else None
        | EmptyString => None
        end
      else
        match read_literal rest with
        | Some (v, tl) => Some (String c v, tl)
        | None => None
        end
  end.

Fixpoint strip_prefix (p s : string) : option string :=
  match p with
  | EmptyString => Some s
  | String c p' =>
      match s with
      | String c' s' => if Ascii.eqb c c' then strip_prefix p' s' else None
      | EmptyString => None
      end
  end.

Definition read_term (s : string) : option (Term * string) :=
  match strip_prefix "name='" s with
  | Some s1 =>
      match read_literal s1 with
      | Some (v, tl) => Some (TName v, tl)
      | None => None
      end
  | None =>
  match strip_prefix "mimeType='" s with
  | Some s1 =>
      match read_literal s1 with
      | Some (v, tl) => Some (TMime v, tl)
      | None => None
      end
  | None =>
  match strip_prefix "'" s with
  | Some s1 =>
      match read_literal s1 with
      | Some (v, s2) =>
          match strip_prefix " in parents" s2 with
          | Some tl => Some (TParent v, tl)
          | None => None
          end
      | None => None
      end
  | None =>
  match strip_prefix "trashed=false" s with
  | Some tl => Some (TTrashed false, tl)
  | None =>
  match strip_prefix "trashed=true" s with
  | Some tl => Some (TTrashed true, tl)
  | None => None
  end end end end end.

Fixpoint read_terms (n : nat) (s : string) : option (list Term) :=
  match n with
  | O => None
  | S n' =>
      match read_term s with
      | Some (t, EmptyString) => Some [t]
      | Some (t, tl) =>
          match strip_prefix " and " tl with
          | Some s' =>
              match read_terms n' s' with
              | Some ts => Some (t :: ts)
              | None => None
              end
          | None => None
          end
      | None => None
      end
  end.

(** Every term takes at least one character, so the length of the query
    bounds the number of terms. *)
Definition parse_query (q : string) : option (list Term) :=
  read_terms (String.length q) q.

Definition term_holds (f : DriveFile) (t : Term) : bool :=
  match t with
  | TName s => bool_decide (f_name f = s)
  | TMime s => bool_decide (f_mime f = s)
  | TParent s => bool_decide (s ∈ f_parents f)
  | TTrashed b => bool_decide (f_trashed f = b)
  end.

(** The object [f] is in the answer to the query [q]. *)
Definition matches (q : string) (f : DriveFile) : bool :=
  match parse_query q with
  | Some ts => forallb (term_holds f) ts
  | None => false
  end.

(** The query strings of [find_folder] and [find_file_in_folder]. *)
Definition folder_query (folder_name : string) : string :=
  "name='" +:+ folder_name
  +:+ "' and mimeType='application/vnd.google-apps.folder' "
  +:+ "and '" +:+ BASE_DRIVE_FOLDER_ID +:+ "' in parents and trashed=false".

Definition file_query (folder_id filename : string) : string :=
  "name='" +:+ filename +:+ "' and '" +:+ folder_id
  +:+ "' in parents and trashed=false".

(** A text that reads back as itself between quotes: it holds no quote and
    no backslash. *)
Definition query_safe (s : string) : bool :=
  negb (PyStr.contains "'" s) && negb (PyStr.contains "\" s).

(** What the two [files().list] calls answer on a store. *)
Definition found_folder (folder_name : string) (r : Remote) : option string :=
  first_id (filter (fun f => matches (folder_query folder_name) f) (drive r)).

Definition found_file (folder_id file_name : string) (r : Remote) : option string :=
  first_id (filter (fun f => matches (file_query folder_id file_name) f) (drive r)).

(** [files().delete(fileId=...)]: the object goes, without passing through
    the trash.  When the object is a folder the service removes what the
    folder holds as well; [delete_id] removes the one object, so what is
    said of the objects that a deletion keeps is said for an object that is
    the parent of none. *)
Definition delete_id (file_id : string) (d : list DriveFile) : list DriveFile :=
  filter (fun f => f_id f ≠ file_id) d.

(** ** Remote calls *)

(** Every call that leaves the process, in the order the handler makes it. *)
Inductive Call :=
| CBuild (service : string)
| CFolderList (folder_name : string)
| CFolderCreate (folder_name : string)
| CFileList (folder_id file_name : string)
| CFileDelete (file_id : string)
| CFileCreate (folder_id file_name : string) (file_storage : FileStorage)
| CSheetAppend (row : list string).

(** What a call that completes does to the stores. *)
Definition apply_call (c : Call) (r : Remote) : Remote :=
  match c with
  | CBuild _ | CFolderList _ | CFileList _ _ => r
  | CFolderCreate n =>
      {| drive := drive r ++ [new_folder (drive r) n]; sheet := sheet r |}
  | CFileDelete i =>
      {| drive := delete_id i (drive r); sheet := sheet r |}
  | CFileCreate fo n fs =>
      {| drive := drive r ++ [new_file (drive r) fo n fs]; sheet := sheet r |}
  | CSheetAppend row =>
      {| drive := drive r; sheet := sheet r ++ [row] |}
  end.

Definition replay (log : list Call) (r : Remote) : Remote :=
  foldl (fun r c => apply_call c r) r log.

(** A call that leaves the sheet alone. *)
Definition drive_call (c : Call) : Prop :=
  match c with
  | CSheetAppend _ => False
  | _ => True
  end.

(** ** Exceptions and state *)

Inductive Outcome (A : Type) :=
| Ok (a : A)
| Raise (e : string).
Arguments Ok {A} a.
Arguments Raise {A} e.

(** A computation of the handler: it reads and writes the remote stores,
    extends the log of the calls made so far in the request, and returns or
    raises. *)
Definition M (A : Type) : Type := Remote * list Call → Outcome A * (Remote * list Call).

#[global] Instance M_ret : MRet M := fun A a st => (Ok a, st).

#[global] Instance M_bind : MBind M := fun A B k m st =>
  match m st with
  | (Ok a, st') => k a st'
  | (Raise e, st') => (Raise e, st')
  end.

(** The JSON body of a response, and the response with its status. *)
Inductive Body :=
| JSuccess (links : gmap string string)
| JError (error : string).

Definition Response : Type := Body * Z.

Section Handler.

(** [faults n] is the text of the exception the [n]-th call of the request
    raises, if it raises one: the network and the two services decide it. *)
Variable faults : nat → option string.

(** The reading of the clock, [datetime.utcnow().isoformat()]. *)
Variable now : string.

(** One call: it is logged; when it raises, the stores are as they were. *)
Definition remote {A} (c : Call) (result : Remote → A) : M A :=
  fun '(r, log) =>
    match faults (length log) with
    | Some e => (Raise e, (r, log ++ [c]))
    | None => (Ok (result r), (apply_call c r, log ++ [c]))
    end.

Definition get_drive_service : M unit := remote (CBuild "drive") (fun _ => tt).
Definition get_sheets_service : M unit := remote (CBuild "sheets") (fun _ => tt).

Definition find_folder (folder_name : string) : M (option string) :=
  remote (CFolderList folder_name) (found_folder folder_name).

Definition create_folder (folder_name : string) : M string :=
  remote (CFolderCreate folder_name) (fun r => gen_id (drive r)).

Definition find_file_in_folder (folder_id file_name : string) : M (option string) :=
  remote (CFileList folder_id file_name) (found_file folder_id file_name).

Definition file_link (file_id : string) : string :=
  "https://drive.google.com/file/d/" +:+ file_id +:+ "/view?usp=sharing".

Definition upload_file_to_drive (file_storage : FileStorage)
    (folder_id drive_filename : string) : M string :=
  file_id ← find_file_in_folder folder_id drive_filename;
  _ ← (if truthy file_id
       then remote (CFileDelete (default "" file_id)) (fun _ => tt)
       else mret tt);
  file_id ← remote (CFileCreate folder_id drive_filename file_storage)
                   (fun r => gen_id (drive r));
  mret (file_link file_id).

(** [d[k]] on a dict: a [KeyError] when the key is absent. *)
Definition index (d : gmap string string) (k : string) : M string :=
  fun st =>
    match d !! k with
    | Some v => (Ok v, st)
    | None => (Raise (PyStr.repr k), st)
    end.

Definition required : list string :=
  [ "firstName"; "lastName"; "studentType"; "degreeLevel"; "gender";
    "birthDate"; "personalEmail"; "nationalCountry"; "t1Country";
    "nationalID"; "transcript1" ].

Definition SLOTS : list string :=
  [ "nationalID"; "transcript1"; "transcript2"; "transcript3"; "transcript4" ].

(** The list [missing] when the validation has run. *)
Definition missing (sub : Submission) : list string :=
  let missing :=
    filter (fun k => negb (truthy (fields sub !! k) || file_truthy (files sub !! k)))
           required in
  if bool_decide (fields sub !! "termsConditions" ≠ Some "true")
  then missing ++ ["termsConditions"]
  else missing.

(** The name under which the file of slot [k] is stored. *)
Definition target_filename (sub : Submission) (folder_name k : string)
    (file : FileStorage) : string :=
  let filename_key := k +:+ "Filename" in
  let drive_filename := fields sub !! filename_key in
  let drive_filename :=
    if negb (truthy drive_filename)
    then let ext := splitext_ext (filename file) in
         folder_name +:+ "-" +:+ k +:+ ext
    else default "" drive_filename in
  if negb (PyStr.contains "." drive_filename)
  then let ext := splitext_ext (filename file) in
       drive_filename +:+ ext
  else drive_filename.

(** The body of the loop over the slots. *)
Definition upload_slot (sub : Submission) (folder_name folder_id : string)
    (links : gmap string string) (k : string) : M (gmap string string) :=
  match files sub !! k with
  | Some file =>
      if truthy (Some (filename file))
      then link ← upload_file_to_drive file folder_id
                    (target_filename sub folder_name k file);
           mret (<[k := link]> links)
      else mret (<[k := ""]> links)
  | None => mret (<[k := ""]> links)
  end.

Fixpoint for_slots (body : gmap string string → string → M (gmap string string))
    (ks : list string) (links : gmap string string) : M (gmap string string) :=
  match ks with
  | [] => mret links
  | k :: ks' => links' ← body links k; for_slots body ks' links'
  end.

Definition make_row (fields : gmap string string) (links : gmap string string)
  : M (list string) :=
  let get k := default "" (fields !! k) in
  nationalID ← index links "nationalID";
  transcript1 ← index links "transcript1";
  transcript2 ← index links "transcript2";
  transcript3 ← index links "transcript3";
  transcript4 ← index links "transcript4";
  mret [ get "firstName"; get "middleName"; get "lastName"; get "additionalName";
         get "studentType"; get "degreeLevel"; get "gender"; get "birthDate";
         get "personalEmail"; get "notes";
         nationalID; get "nationalCountry";
         transcript1; get "t1Country";
         transcript2; get "t2Country";
         transcript3; get "t3Country";
         transcript4; get "t4Country";
         get "termsConditions";
         now ].

(** The part of the handler after the validation. *)
Definition submit (sub : Submission) : M (gmap string string) :=
  _ ← get_drive_service;
  let folder_name := make_folder_name (fields sub) in
  folder_id ← find_folder folder_name;
  folder_id ← (if negb (truthy folder_id)
               then create_folder folder_name
               else mret (default "" folder_id));
  links ← for_slots (upload_slot sub folder_name folder_id) SLOTS ∅;
  _ ← get_sheets_service;
  row ← make_row (fields sub) links;
  _ ← remote (CSheetAppend row) (fun _ => tt);
  mret links.

(** [handle_submit]: the response, the stores it leaves and the calls it
    made. *)
Definition handle_submit (sub : Submission) (r : Remote)
  : Response * Remote * list Call :=
  let missing := missing sub in
  if negb (bool_decide (missing = []))
  then ((JError ("Missing required fields: " +:+ PyStr.repr_list missing), 400), r, [])
  else match submit sub (r, []) with
       | (Ok links, (r', log)) => ((JSuccess links, 200), r', log)
       | (Raise e, (r', log)) => ((JError e, 500), r', log)
       end.

(** ** The calls of a run

    A run of the handler makes the calls of a list one after the other
    until one of them raises.  [exec_calls] is that process; the
    definitions after it give, for each part of the handler, the list of
    the calls it makes when none raises and the value it then returns. *)

Fixpoint exec_calls (cs : list Call) (r : Remote) (log : list Call)
  : option string * (Remote * list Call) :=
  match cs with
  | [] => (None, (r, log))
  | c :: cs' =>
      match faults (length log) with
      | Some e => (Some e, (r, log ++ [c]))
      | None => exec_calls cs' (apply_call c r) (log ++ [c])
      end
  end.

Definition exec {A} (cs : list Call) (a : A) : M A :=
  fun '(r, log) =>
    match exec_calls cs r log with
    | (None, st) => (Ok a, st)
    | (Some e, st) => (Raise e, st)
    end.

(** From the stores [r], [m] makes the calls [cs] and returns [a]. *)
Definition runs_at {A} (m : M A) (cs : list Call) (a : A) (r : Remote) : Prop :=
  ∀ log, m (r, log) = exec cs a (r, log).

End Handler.

(** The stores when [upload_file_to_drive] is about to create the file. *)
Definition before_create (folder_id file_name : string) (r : Remote) : Remote :=
  if truthy (found_file folder_id file_name r)
  then apply_call (CFileDelete (default "" (found_file folder_id file_name r))) r
  else r.

Definition upload_calls (folder_id file_name : string) (file : FileStorage)
    (r : Remote) : list Call :=
  CFileList folder_id file_name
    :: (if truthy (found_file folder_id file_name r)
        then [CFileDelete (default "" (found_file folder_id file_name r))]
        else [])
    ++ [CFileCreate folder_id file_name file].

Definition upload_link (folder_id file_name : string) (r : Remote) : string :=
  file_link (gen_id (drive (before_create folder_id file_name r))).

(** The file of slot [k] and the name it is stored under, when the slot is
    uploaded. *)
Definition slot_upload (sub : Submission) (folder_name k : string)
  : option (string * FileStorage) :=
  match files sub !! k with
  | Some file =>
      if truthy (Some (filename file))
      then Some (target_filename sub folder_name k file, file)
      else None
  | None => None
  end.

Definition slot_calls (sub : Submission) (folder_name folder_id k : string)
    (r : Remote) : list Call :=
  match slot_upload sub folder_name k with
  | Some (n, file) => upload_calls folder_id n file r
  | None => []
  end.

Definition slot_link (sub : Submission) (folder_name folder_id k : string)
    (r : Remote) : string :=
  match slot_upload sub folder_name k with
  | Some (n, _) => upload_link folder_id n r
  | None => ""
  end.

Fixpoint slots_calls (sub : Submission) (folder_name folder_id : string)
    (ks : list string) (r : Remote) : list Call :=
  match ks with
  | [] => []
  | k :: ks' =>
      let cs := slot_calls sub folder_name folder_id k r in
      cs ++ slots_calls sub folder_name folder_id ks' (replay cs r)
  end.

Fixpoint slots_links (sub : Submission) (folder_name folder_id : string)
    (ks : list string) (links : gmap string string) (r : Remote)
  : gmap string string :=
  match ks with
  | [] => links
  | k :: ks' =>
      slots_links sub folder_name folder_id ks'
        (<[k := slot_link sub folder_name folder_id k r]> links)
        (replay (slot_calls sub folder_name folder_id k r) r)
  end.

(** The folder the uploads of a request go to. *)
Definition resolved_folder (folder_name : string) (r : Remote) : string :=
  if negb (truthy (found_folder folder_name r))
  then gen_id (drive r)
  else default "" (found_folder folder_name r).

Definition folder_calls (folder_name : string) (r : Remote) : list Call :=
  CBuild "drive" :: CFolderList folder_name
    :: (if negb (truthy (found_folder folder_name r))
        then [CFolderCreate folder_name]
        else []).

Definition submit_links (sub : Submission) (r : Remote) : gmap string string :=
  let folder_name := make_folder_name (fields sub) in
  slots_links sub folder_name (resolved_folder folder_name r) SLOTS ∅
    (replay (folder_calls folder_name r) r).

(** The row, given the links. *)
Definition row_of (now : string) (fields links : gmap string string) : list string :=
  let get k := default "" (fields !! k) in
  let link k := default "" (links !! k) in
  [ get "firstName"; get "middleName"; get "lastName"; get "additionalName";
    get "studentType"; get "degreeLevel"; get "gender"; get "birthDate";
    get "personalEmail"; get "notes";
    link "nationalID"; get "nationalCountry";
    link "transcript1"; get "t1Country";
    link "transcript2"; get "t2Country";
    link "transcript3"; get "t3Country";
    link "transcript4"; get "t4Country";
    get "termsConditions";
    now ].

Definition submit_calls (now : string) (sub : Submission) (r : Remote) : list Call :=
  let folder_name := make_folder_name (fields sub) in
  folder_calls folder_name r
    ++ slots_calls sub folder_name (resolved_folder folder_name r) SLOTS
         (replay (folder_calls folder_name r) r)
    ++ [CBuild "sheets"; CSheetAppend (row_of now (fields sub) (submit_links sub r))].

(** ** Further notions about logs *)

(** The files that the calls of a log create: folder, name and upload. *)
Definition file_creates (log : list Call) : list (string * string * FileStorage) :=
  omap (fun c => match c with
                 | CFileCreate fo n file => Some (fo, n, file)
                 | _ => None
                 end) log.

(** A call that the uploads of the slots [ks] can make: its folder is
    [folder_id] and its file name is that of one of these slots. *)
Definition slot_call (sub : Submission) (key folder_id : string) (ks : list string)
    (c : Call) : Prop :=
  match c with
  | CFileList fo n =>
      fo = folder_id ∧ ∃ k file, k ∈ ks ∧ slot_upload sub key k = Some (n, file)
  | CFileCreate fo n file =>
      fo = folder_id ∧ ∃ k, k ∈ ks ∧ slot_upload sub key k = Some (n, file)
  | CFileDelete _ => True
  | _ => False
  end.

(** ** Readings of the specification, for comparison with the code *)

(** The missing names when "present" is read as "the key occurs": a
    required field is missing when it occurs neither among the form fields
    nor among the file slots. *)
Definition absent_names (sub : Submission) : list string :=
  filter (fun k => fields sub !! k = None ∧ files sub !! k = None) required
  ++ (if bool_decide (fields sub !! "termsConditions" = Some "true")
      then [] else ["termsConditions"]).

(** The name of an uploaded file as the specification words it: the
    [<slot>Filename] field when the form has it, else the folder key, a
    dash, the slot and the extension of the original file name; and that
    extension after the chosen name when the chosen name has no extension.
    "Present" is read as "the key occurs", and the extension of a name is
    what [os.path.splitext] gives. *)
Definition claimed_filename (sub : Submission) (folder_name k : string)
    (file : FileStorage) : string :=
  let ext := splitext_ext (filename file) in
  let chosen :=
    match fields sub !! (k +:+ "Filename") with
    | Some n => n
    | None => folder_name +:+ "-" +:+ k +:+ ext
    end in
  if String.eqb (splitext_ext chosen) "" then chosen +:+ ext else chosen.

(** ** Well-formed stores *)

(** The store gives every object an identifier that is not empty, that holds
    no quote and no backslash, and that no other object has. *)
Definition wf_drive (d : list DriveFile) : Prop :=
  NoDup (f_id <$> d)
  ∧ Forall (fun f => f_id f ≠ "" ∧ query_safe (f_id f) = true) d.

(** No object is its own parent. *)
Definition acyclic1 (d : list DriveFile) : Prop :=
  Forall (fun f => f_id f ∉ f_parents f) d.

(** The number of files named [n] in folder [folder_id], trash apart. *)
Definition count_named (folder_id n : string) (d : list DriveFile) : nat :=
  length (filter (fun f => is_file_named folder_id n f) d).

(** The number of folders named [n] directly under the root, trash apart. *)
Definition count_folders (n : string) (d : list DriveFile) : nat :=
  length (filter (fun f => is_folder_named n f) d).

(** ** Calls that keep to one folder *)

(** The names of the folders that the calls of a log create. *)
Definition folder_creates (log : list Call) : list string :=
  omap (fun c => match c with CFolderCreate n => Some n | _ => None end) log.

(** [c] is a call of the uploads into folder [folder_id] from the stores
    [r]: it creates no folder, creates files in [folder_id] only and deletes
    only a file that a lookup in [folder_id], for a name without quote or
    backslash, finds. *)
Definition keeps_to (folder_id : string) (c : Call) (r : Remote) : Prop :=
  match c with
  | CFolderCreate _ => False
  | CFileCreate fo _ _ => fo = folder_id
  | CFileDelete i => ∃ n, query_safe n = true ∧ found_file folder_id n r = Some i
  | _ => True
  end.

Fixpoint keep_to (folder_id : string) (cs : list Call) (r : Remote) : Prop :=
  match cs with
  | [] => True
  | c :: cs' => keeps_to folder_id c r ∧ keep_to folder_id cs' (apply_call c r)
  end.

(** The folder [folder_id] is the one that a lookup of [folder_name], a
    name without quote or backslash, finds in the well-formed stores [r]. *)
Definition resolves_to (folder_name folder_id : string) (r : Remote) : Prop :=
  query_safe folder_name = true
  ∧ wf_drive (drive r) ∧ acyclic1 (drive r)
  ∧ found_folder folder_name r = Some folder_id.

(** The names under which the request stores its uploads hold no quote and
    no backslash. *)
Definition safe_uploads (sub : Submission) : bool :=
  forallb (fun k =>
             match slot_upload sub (make_folder_name (fields sub)) k with
             | Some (n, _) => query_safe n
             | None => true
             end) SLOTS.

(** The request whose log is [log] got past the resolution of its folder. *)
Definition resolution_done (folder_name : string) (r : Remote) (log : list Call)
  : Prop :=
  ∃ rest, rest ≠ [] ∧ log = folder_calls folder_name r ++ rest.



Definition demo_file (n : string) : FileStorage :=
  {| filename := n; mimetype := "application/pdf"; stream := "%PDF" |}.

Definition demo_fields : gmap string string :=
  list_to_map
    [ ("firstName", "Denise"); ("lastName", "Nelson"); ("studentType", "MSOHQ");
      ("degreeLevel", "MBA"); ("gender", "F"); ("birthDate", "1990-01-01");
      ("personalEmail", "d@example.org"); ("nationalCountry", "US");
      ("t1Country", "US"); ("termsConditions", "true") ].

Definition demo_sub : Submission :=
  {| fields := demo_fields;
     files := list_to_map [ ("nationalID", demo_file "id.pdf");
                            ("transcript1", demo_file "t1.pdf") ] |}.

(** The form of [demo_sub] with an empty first name and no acceptance of the
    terms. *)
Definition blank_name_sub : Submission :=
  {| fields := <["firstName" := ""]> (delete "termsConditions" demo_fields);
     files := files demo_sub |}.

(** [demo_sub] with an empty [nationalIDFilename] field. *)
Definition blank_override_sub : Submission :=
  {| fields := <["nationalIDFilename" := ""]> demo_fields;
     files := files demo_sub |}.

(** [demo_sub] with a [nationalIDFilename] field that starts with its only
    dot. *)
Definition hidden_sub : Submission :=
  {| fields := <["nationalIDFilename" := ".hidden"]> demo_fields;
     files := files demo_sub |}.

(** [demo_sub] with the last name sent as a file and not as a form field. *)
Definition lastname_file_sub : Submission :=
  {| fields := delete "lastName" demo_fields;
     files := <["lastName" := demo_file "name.txt"]> (files demo_sub) |}.

(** [demo_sub] with an empty file part in the slot [transcript1]. *)
Definition empty_part_sub : Submission :=
  {| fields := demo_fields;
     files := <["transcript1" := demo_file ""]> (files demo_sub) |}.

Definition demo_now : string := "2025-01-01T00:00:00".

Definition no_faults : nat → option string := fun _ => None.

(** The first two calls succeed and the third raises. *)
Definition fault_at_2 : nat → option string :=
  fun n => if Nat.eqb n 2 then Some "HttpError 503" else None.

(** The first three calls succeed and the fourth raises. *)
Definition fault_at_3 : nat → option string :=
  fun n => if Nat.eqb n 3 then Some "HttpError 503" else None.
Definition empty_remote : Remote := {| drive := []; sheet := [] |}.

(** A store in which the folder of [demo_sub] exists and holds two files
    with the name of its first upload, and the same store with one of
    them. *)
Definition demo_folder : DriveFile :=
  {| f_id := "F1"; f_name := "Nelson_Denise_MBA_MSOHQ"; f_mime := FOLDER_MIME;
     f_parents := [BASE_DRIVE_FOLDER_ID]; f_trashed := false; f_bytes := "" |}.

Definition old_file (i : string) : DriveFile :=
  {| f_id := i; f_name := "Nelson_Denise_MBA_MSOHQ-nationalID.pdf";
     f_mime := "application/pdf"; f_parents := ["F1"]; f_trashed := false;
     f_bytes := "old" |}.


Definition one_remote : Remote :=
  {| drive := [demo_folder; old_file "a"]; sheet := [] |}.

(** [demo_sub] with the last name [a\'b]. *)
Definition escaped_sub : Submission :=
  {| fields := <["lastName" := "a\'b"]> demo_fields; files := files demo_sub |}.




Definition demo_links : gmap string string := submit_links demo_sub empty_remote.
Definition demo_log : list Call := submit_calls demo_now demo_sub empty_remote.
Definition demo_final : Remote := replay demo_log empty_remote.

(** * Properties *)

(** ** Queries that read back as written *)

Lemma string_app_cons c s t : String c s +:+ t = String c (s +:+ t).
Proof. reflexivity. Qed.

Lemma string_app_nil_l t : "" +:+ t = t.
Proof. reflexivity. Qed.

Lemma query_safe_cons c s :
  query_safe (String c s) = true →
  Ascii.eqb c "'" = false ∧ Ascii.eqb c "\" = false ∧ query_safe s = true.
Proof.
  unfold query_safe. simpl.
  rewrite !andb_true_iff, !negb_true_iff, !orb_false_iff. tauto.
Qed.

Lemma read_literal_safe n tl :
  query_safe n = true → read_literal (n +:+ String "'" tl) = Some (n, tl).
Proof.
  induction n as [|c n IH]; [done|].
  intros (Hq & Hb & Hn)%query_safe_cons.
  rewrite string_app_cons. cbn [read_literal]. by rewrite Hq, Hb, (IH Hn).
Qed.

Lemma read_terms_more n m s ts :
  read_terms n s = Some ts → read_terms (n + m) s = Some ts.
Proof.
  revert s ts. induction n as [|n IH]; intros s ts; [done|]. cbn [read_terms Nat.add].
  destruct (read_term s) as [[t [|c tl]]|]; [done| |done].
  destruct (strip_prefix " and " (String c tl)) as [s'|]; [|done].
  destruct (read_terms n s') as [ts'|] eqn:E; [|done].
  by rewrite (IH _ _ E).
Qed.

Lemma parse_file_query folder_id n :
  query_safe folder_id = true → query_safe n = true →
  parse_query (file_query folder_id n)
  = Some [TName n; TParent folder_id; TTrashed false].
Proof.
  intros HF Hn. unfold parse_query.
  replace (String.length (file_query folder_id n))
    with (3 + (String.length (file_query folder_id n) - 3))%nat.
  2:{ unfold file_query. rewrite !string_app_cons. simpl String.length. lia. }
  apply read_terms_more. unfold file_query.
  rewrite !string_app_cons, !string_app_nil_l.
  cbn [read_terms read_term strip_prefix Ascii.eqb Bool.eqb].
  rewrite (read_literal_safe n _ Hn).
  cbn [strip_prefix Ascii.eqb Bool.eqb read_term read_terms].
  rewrite (read_literal_safe folder_id _ HF).
  reflexivity.
Qed.

Lemma parse_folder_query key :
  query_safe key = true →
  parse_query (folder_query key)
  = Some [TName key; TMime FOLDER_MIME; TParent BASE_DRIVE_FOLDER_ID; TTrashed false].
Proof.
  intros Hk. unfold parse_query.
  replace (String.length (folder_query key))
    with (4 + (String.length (folder_query key) - 4))%nat.
  2:{ unfold folder_query. rewrite !string_app_cons. simpl String.length. lia. }
  apply read_terms_more. unfold folder_query.
  rewrite !string_app_cons, !string_app_nil_l.
  cbn [read_terms read_term strip_prefix Ascii.eqb Bool.eqb].
  rewrite (read_literal_safe key _ Hk).
  reflexivity.
Qed.

(** For a name and a folder identifier without quote or backslash, the
    query of [find_file_in_folder] asks for the objects of that name in that
    folder, trash apart. *)
Lemma matches_file_query folder_id n f :
  query_safe folder_id = true → query_safe n = true →
  matches (file_query folder_id n) f = is_file_named folder_id n f.
Proof.
  intros HF Hn. unfold matches. rewrite parse_file_query by done.
  unfold is_file_named. cbn [forallb term_holds]. rewrite andb_true_r, andb_assoc.
  f_equal. by destruct (f_trashed f).
Qed.

(** For a folder name without quote or backslash, the query of
    [find_folder] asks for the folders of that name under the root, trash
    apart. *)
Lemma matches_folder_query key f :
  query_safe key = true →
  matches (folder_query key) f = is_folder_named key f.
Proof.
  intros Hk. unfold matches. rewrite parse_folder_query by done.
  unfold is_folder_named. cbn [forallb term_holds]. rewrite andb_true_r, !andb_assoc.
  f_equal. by destruct (f_trashed f).
Qed.

Lemma found_file_safe folder_id n r :
  query_safe folder_id = true → query_safe n = true →
  found_file folder_id n r
  = first_id (filter (fun f => is_file_named folder_id n f) (drive r)).
Proof.
  intros HF Hn. unfold found_file. f_equal. apply list_filter_iff.
  intros f. by rewrite matches_file_query.
Qed.

Lemma found_folder_safe key r :
  query_safe key = true →
  found_folder key r = first_id (filter (fun f => is_folder_named key f) (drive r)).
Proof.
  intros Hk. unfold found_folder. f_equal. apply list_filter_iff.
  intros f. by rewrite matches_folder_query.
Qed.


Example splitext_pdf : splitext_ext "scan.final.pdf" = ".pdf".
Proof. reflexivity. Qed.
Example splitext_hidden : splitext_ext ".bashrc" = "".
Proof. reflexivity. Qed.
Example splitext_dir : splitext_ext "a.b/c" = "".
Proof. reflexivity. Qed.
Example splitext_dots : splitext_ext "dir/..x.y" = ".y".
Proof. reflexivity. Qed.
(** The bound on the iterations of the scan is never reached: more
    iterations give the same extension. *)
Lemma rfind_bounds c s : -1 ≤ PyStr.rfind c s < Z.of_nat (String.length s).
Proof.
  induction s as [|c' s IH]; simpl String.length; cbn [PyStr.rfind]; [lia|].
  destruct (0 <=? PyStr.rfind c s) eqn:E; [apply Z.leb_le in E; lia|].
  destruct (Ascii.eqb c' c); lia.
Qed.

Lemma splitext_scan_fuel p dotIndex n m i :
  dotIndex - i ≤ Z.of_nat n →
  splitext_scan p dotIndex (n + m) i = splitext_scan p dotIndex n i.
Proof.
  revert i. induction n as [|n IH]; intros i Hn.
  - destruct m; simpl; [done|]. destruct (i <? dotIndex) eqn:E; [|done].
    apply Z.ltb_lt in E. lia.
  - simpl. destruct (i <? dotIndex); [|done]. destruct (negb _); [done|].
    apply IH. lia.
Qed.

Lemma splitext_ext_fuel p m :
  splitext_ext p =
  if PyStr.rfind "/" p <? PyStr.rfind "." p
  then splitext_scan p (PyStr.rfind "." p) (String.length p + m) (PyStr.rfind "/" p + 1)
  else "".
Proof.
  unfold splitext_ext. destruct (_ <? _); [|done].
  rewrite splitext_scan_fuel; [done|].
  pose proof (rfind_bounds "/" p). pose proof (rfind_bounds "." p). lia.
Qed.

Example folder_key_ex : folder_key "Nelson" "Denise" "MBA" "MSOHQ" = "Nelson_Denise_MBA_MSOHQ".
Proof. vm_compute. reflexivity. Qed.


(** Membership in a list that is written out. *)
Ltac in_list :=
  repeat first [apply list_elem_of_here | apply list_elem_of_further].

(** ** Runs and their calls *)

Section Runs.

Variable faults : nat → option string.

Lemma replay_app cs1 cs2 r : replay (cs1 ++ cs2) r = replay cs2 (replay cs1 r).
Proof. apply foldl_app. Qed.

Lemma exec_calls_app cs1 cs2 r log :
  exec_calls faults (cs1 ++ cs2) r log =
  match exec_calls faults cs1 r log with
  | (None, (r', log')) => exec_calls faults cs2 r' log'
  | res => res
  end.
Proof.
  revert r log. induction cs1 as [|c cs1 IH]; intros r log; simpl; [done|].
  destruct (faults (length log)); [done|]. apply IH.
Qed.

Lemma exec_calls_ok cs r log r' log' :
  exec_calls faults cs r log = (None, (r', log')) →
  r' = replay cs r ∧ log' = log ++ cs.
Proof.
  revert r log. induction cs as [|c cs IH]; intros r log; simpl.
  - intros [= <- <-]. by rewrite app_nil_r.
  - destruct (faults (length log)); [done|].
    intros [-> ->]%IH. by rewrite <- app_assoc.
Qed.

Lemma exec_calls_raise cs r log e r' log' :
  exec_calls faults cs r log = (Some e, (r', log')) →
  ∃ done c rest,
    cs = done ++ c :: rest ∧ r' = replay done r ∧ log' = log ++ done ++ [c]
    ∧ faults (length (log ++ done)) = Some e.
Proof.
  revert r log. induction cs as [|c cs IH]; intros r log; simpl; [done|].
  destruct (faults (length log)) as [e'|] eqn:Hf.
  - intros [= <- <- <-]. exists [], c, cs. by rewrite app_nil_r.
  - intros (done & c' & rest & -> & -> & -> & Hf')%IH.
    exists (c :: done), c', rest. rewrite <- !app_assoc in *. done.
Qed.

Lemma runs_ret {A} (a : A) r : runs_at faults (mret a) [] a r.
Proof. by intros log. Qed.

Lemma runs_remote {A} c (f : Remote → A) r : runs_at faults (remote faults c f) [c] (f r) r.
Proof. intros log. unfold remote, exec. simpl. by destruct (faults (length log)). Qed.

Lemma runs_bind {A B} (m : M A) (k : A → M B) cs cs' a b r :
  runs_at faults m cs a r →
  runs_at faults (k a) cs' b (replay cs r) →
  runs_at faults (m ≫= k) (cs ++ cs') b r.
Proof.
  intros Hm Hk log. unfold mbind, M_bind. rewrite Hm. unfold exec.
  rewrite exec_calls_app.
  destruct (exec_calls faults cs r log) as [[e|] [r1 log1]] eqn:E; [done|].
  apply exec_calls_ok in E as [-> ->]. by rewrite Hk.
Qed.

Lemma runs_upload file folder_id n r :
  runs_at faults (upload_file_to_drive faults file folder_id n)
    (upload_calls folder_id n file r) (upload_link folder_id n r) r.
Proof.
  unfold upload_file_to_drive, upload_calls, upload_link, before_create.
  change (CFileList folder_id n :: ?l) with ([CFileList folder_id n] ++ l).
  eapply runs_bind; [apply runs_remote|]. simpl.
  eapply runs_bind.
  - destruct (truthy (found_file folder_id n r)); [apply runs_remote|apply runs_ret].
  - rewrite <- (app_nil_r [CFileCreate _ _ _]).
    eapply runs_bind; [apply runs_remote|].
    destruct (truthy (found_file folder_id n r)); apply runs_ret.
Qed.

Lemma runs_slot sub folder_name folder_id links k r :
  runs_at faults (upload_slot faults sub folder_name folder_id links k)
    (slot_calls sub folder_name folder_id k r)
    (<[k := slot_link sub folder_name folder_id k r]> links) r.
Proof.
  unfold upload_slot, slot_calls, slot_link, slot_upload.
  destruct (files sub !! k) as [file|]; [|apply runs_ret].
  destruct (truthy (Some (filename file))); [|apply runs_ret].
  rewrite <- (app_nil_r (upload_calls _ _ _ _)).
  eapply runs_bind; [apply runs_upload|apply runs_ret].
Qed.

Lemma runs_slots sub folder_name folder_id ks links r :
  runs_at faults (for_slots (upload_slot faults sub folder_name folder_id) ks links)
    (slots_calls sub folder_name folder_id ks r)
    (slots_links sub folder_name folder_id ks links r) r.
Proof.
  revert links r. induction ks as [|k ks IH]; intros links r; simpl.
  - apply runs_ret.
  - eapply runs_bind; [apply runs_slot|apply IH].
Qed.

Lemma slots_links_keep sub folder_name folder_id ks links r k :
  is_Some (links !! k) →
  is_Some (slots_links sub folder_name folder_id ks links r !! k).
Proof.
  revert links r. induction ks as [|k' ks IH]; intros links r Hk; simpl; [done|].
  apply IH. destruct (decide (k' = k)) as [->|].
  - rewrite lookup_insert_eq. eauto.
  - by rewrite lookup_insert_ne.
Qed.

Lemma slots_links_is_Some sub folder_name folder_id ks links r k :
  k ∈ ks → is_Some (slots_links sub folder_name folder_id ks links r !! k).
Proof.
  revert links r. induction ks as [|k' ks IH]; intros links r Hk; simpl.
  - by apply not_elem_of_nil in Hk.
  - apply elem_of_cons in Hk as [->|Hk]; [|by apply IH].
    apply slots_links_keep. rewrite lookup_insert_eq. eauto.
Qed.

Lemma submit_links_is_Some sub r k : k ∈ SLOTS → is_Some (submit_links sub r !! k).
Proof. apply slots_links_is_Some. Qed.

Lemma runs_make_row now fields links r :
  (∀ k, k ∈ SLOTS → is_Some (links !! k)) →
  runs_at faults (make_row now fields links) [] (row_of now fields links) r.
Proof.
  intros Hk log. unfold make_row, row_of, index, mbind, M_bind.
  destruct (Hk "nationalID") as [l0 ->]; [unfold SLOTS; in_list|].
  destruct (Hk "transcript1") as [l1 ->]; [unfold SLOTS; in_list|].
  destruct (Hk "transcript2") as [l2 ->]; [unfold SLOTS; in_list|].
  destruct (Hk "transcript3") as [l3 ->]; [unfold SLOTS; in_list|].
  destruct (Hk "transcript4") as [l4 ->]; [unfold SLOTS; in_list|].
  done.
Qed.

Lemma runs_submit now sub r :
  runs_at faults (submit faults now sub) (submit_calls now sub r) (submit_links sub r) r.
Proof.
  unfold submit, submit_calls, folder_calls, get_drive_service, get_sheets_service,
    find_folder, create_folder.
  set (key := make_folder_name (fields sub)).
  change (CBuild "drive" :: CFolderList key :: ?l)
    with ([CBuild "drive"] ++ [CFolderList key] ++ l).
  rewrite <- !app_assoc.
  eapply runs_bind; [apply runs_remote|].
  eapply runs_bind; [apply runs_remote|].
  change (replay [CFolderList key] (replay [CBuild "drive"] r)) with r.
  change (found_folder key (replay [CBuild "drive"] r)) with (found_folder key r).
  eapply (runs_bind _ _ _ _ (resolved_folder key r)).
  { unfold resolved_folder.
    destruct (negb (truthy (found_folder key r)));
      [apply (runs_remote _ (fun r => gen_id (drive r)))|apply runs_ret]. }
  change (replay ([CBuild "drive"] ++ [CFolderList key] ++ ?l) r) with (replay l r).
  eapply runs_bind; [apply runs_slots|].
  change ([CBuild "sheets"; ?c]) with ([CBuild "sheets"] ++ [] ++ [c] ++ []).
  eapply runs_bind; [apply runs_remote|].
  eapply runs_bind; [apply runs_make_row, submit_links_is_Some|].
  eapply runs_bind; [apply runs_remote|apply runs_ret].
Qed.

(** The handler is the validation followed by the calls of [submit_calls],
    as far as they go. *)
Lemma handle_submit_exec now sub r :
  handle_submit faults now sub r =
  if negb (bool_decide (missing sub = []))
  then ((JError ("Missing required fields: " +:+ PyStr.repr_list (missing sub)), 400), r, [])
  else match exec_calls faults (submit_calls now sub r) r [] with
       | (None, (r', log)) => ((JSuccess (submit_links sub r), 200), r', log)
       | (Some e, (r', log)) => ((JError e, 500), r', log)
       end.
Proof.
  unfold handle_submit. destruct (negb _); [done|].
  rewrite (runs_submit now sub r []). unfold exec.
  by destruct (exec_calls _ _ _ _) as [[e|] [r' log]].
Qed.

Lemma handle_submit_success now sub r links r' log :
  handle_submit faults now sub r = ((JSuccess links, 200), r', log) →
  missing sub = [] ∧ links = submit_links sub r
  ∧ log = submit_calls now sub r ∧ r' = replay log r.
Proof.
  rewrite handle_submit_exec. case_bool_decide as Hm; cbn [negb]; [|done].
  destruct (exec_calls _ _ _ _) as [[e|] [r1 log1]] eqn:E; [done|].
  apply exec_calls_ok in E as [-> ->]. intros [= <- <- <-]. by repeat split.
Qed.

End Runs.

(** ** Validation *)

Lemma elem_of_missing sub k :
  k ∈ missing sub ↔
  (k ∈ required ∧ truthy (fields sub !! k) = false
     ∧ file_truthy (files sub !! k) = false)
  ∨ (k = "termsConditions" ∧ fields sub !! "termsConditions" ≠ Some "true").
Proof.
  unfold missing.
  assert (Hf : ∀ l : list string,
    k ∈ filter (fun k => negb (truthy (fields sub !! k) || file_truthy (files sub !! k))) l
    ↔ k ∈ l ∧ truthy (fields sub !! k) = false ∧ file_truthy (files sub !! k) = false).
  { intros l. rewrite list_elem_of_filter.
    destruct (truthy (fields sub !! k)), (file_truthy (files sub !! k));
      simpl; intuition congruence. }
  case_bool_decide as Ht.
  - rewrite elem_of_app, Hf, list_elem_of_singleton. intuition congruence.
  - rewrite Hf. intuition congruence.
Qed.

Lemma validation_rejects faults now sub r :
  missing sub ≠ [] →
  handle_submit faults now sub r =
  ((JError ("Missing required fields: " +:+ PyStr.repr_list (missing sub)), 400), r, []).
Proof.
  intros Hm. unfold handle_submit. by rewrite bool_decide_eq_false_2.
Qed.

(** C1, as stated, fails: with an empty [firstName] form field and no
    [termsConditions], the only name that occurs nowhere in the submission
    is [termsConditions], but the message of the handler lists [firstName]
    as well. *)
Lemma c1_counterexample :
  fields blank_name_sub !! "termsConditions" ≠ Some "true"
  ∧ absent_names blank_name_sub = ["termsConditions"]
  ∧ (handle_submit no_faults "" blank_name_sub empty_remote).1.1
    = (JError "Missing required fields: ['firstName', 'termsConditions']", 400)
  ∧ (handle_submit no_faults "" blank_name_sub empty_remote).1.1
    ≠ (JError ("Missing required fields: "
               +:+ PyStr.repr_list (absent_names blank_name_sub)), 400).
Proof. vm_compute. repeat split; discriminate. Qed.

(** C1, amended: when some required field has neither a non-empty form value
    nor a file slot with a non-empty file name, or [termsConditions] is not
    the string [true], the handler answers 400 with the message
    [Missing required fields: ] followed by the list of exactly those
    required names, in the order of the required list, with
    [termsConditions] last when it is not [true]; it makes no remote call
    and leaves the stores as they were. *)
Theorem c1_validation_failure faults now sub r :
  (∃ k, k ∈ required ∧ truthy (fields sub !! k) = false
        ∧ file_truthy (files sub !! k) = false)
  ∨ fields sub !! "termsConditions" ≠ Some "true" →
  handle_submit faults now sub r =
    ((JError ("Missing required fields: " +:+ PyStr.repr_list (missing sub)), 400), r, [])
  ∧ missing sub =
      filter (fun k => truthy (fields sub !! k) = false
                       ∧ file_truthy (files sub !! k) = false) required
      ++ (if bool_decide (fields sub !! "termsConditions" = Some "true")
          then [] else ["termsConditions"]).
Proof.
  intros H. split.
  - apply validation_rejects. intros Hnil.
    assert (∃ k, k ∈ missing sub) as [k Hk].
    { destruct H as [(k & ? & ? & ?)|?];
        [exists k|exists "termsConditions"]; apply elem_of_missing; eauto. }
    rewrite Hnil in Hk. by apply not_elem_of_nil in Hk.
  - unfold missing.
    assert (∀ l : list string,
      filter (fun k => negb (truthy (fields sub !! k) || file_truthy (files sub !! k))) l
      = filter (fun k => truthy (fields sub !! k) = false
                         ∧ file_truthy (files sub !! k) = false) l) as ->.
    { intros l. apply list_filter_iff. intros k.
      destruct (truthy (fields sub !! k)), (file_truthy (files sub !! k));
        simpl; intuition congruence. }
    do 2 case_bool_decide; try done; by rewrite ?app_nil_r.
Qed.

Lemma c1_validation_failure_witness :
  handle_submit no_faults "" blank_name_sub empty_remote =
    ((JError ("Missing required fields: "
              +:+ PyStr.repr_list (missing blank_name_sub)), 400), empty_remote, [])
  ∧ missing blank_name_sub =
      filter (fun k => truthy (fields blank_name_sub !! k) = false
                       ∧ file_truthy (files blank_name_sub !! k) = false) required
      ++ (if bool_decide (fields blank_name_sub !! "termsConditions" = Some "true")
          then [] else ["termsConditions"]).
Proof.
  apply (c1_validation_failure no_faults "" blank_name_sub empty_remote).
  right. vm_compute. discriminate.
Defined.

(** C9: a required field whose form value is the empty string, and for
    which no file was sent, is in the list of missing names, and the request
    is rejected with that list. *)
Theorem c9_empty_value_is_missing faults now sub r k :
  k ∈ required →
  fields sub !! k = Some "" →
  files sub !! k = None →
  k ∈ missing sub
  ∧ handle_submit faults now sub r =
      ((JError ("Missing required fields: " +:+ PyStr.repr_list (missing sub)), 400), r, []).
Proof.
  intros Hk Hf Hn.
  assert (Hin : k ∈ missing sub).
  { apply elem_of_missing. left. by rewrite Hf, Hn. }
  split; [done|]. apply validation_rejects. intros Hnil.
  rewrite Hnil in Hin. by apply not_elem_of_nil in Hin.
Qed.

Lemma c9_empty_value_is_missing_witness :
  "firstName" ∈ missing blank_name_sub
  ∧ handle_submit no_faults "" blank_name_sub empty_remote =
      ((JError ("Missing required fields: "
                +:+ PyStr.repr_list (missing blank_name_sub)), 400), empty_remote, []).
Proof.
  apply (c9_empty_value_is_missing no_faults "" blank_name_sub empty_remote "firstName").
  - vm_compute. apply list_elem_of_here.
  - vm_compute. reflexivity.
  - vm_compute. reflexivity.
Defined.

(** ** The folder key *)

Lemma replace_app a b s t :
  PyStr.replace a b (s +:+ t) = PyStr.replace a b s +:+ PyStr.replace a b t.
Proof. induction s as [|c s IH]; simpl; [done|]. by rewrite IH. Qed.

Lemma normalize_app s t : normalize (s +:+ t) = normalize s +:+ normalize t.
Proof. unfold normalize. by rewrite !replace_app. Qed.

Lemma replace_absent a b s : PyStr.contains a s = false → PyStr.replace a b s = s.
Proof.
  induction s as [|c s IH]; simpl; [done|].
  destruct (Ascii.eqb c a); simpl; [done|]. intros H. by rewrite IH.
Qed.

Lemma plain_normalize s : plain s = true → normalize s = s.
Proof.
  unfold plain, normalize. rewrite !andb_true_iff, !negb_true_iff.
  intros [[_ Hs] Hsl]. rewrite (replace_absent " " "_" s Hs).
  by apply replace_absent.
Qed.

Lemma make_folder_name_normalize flds :
  make_folder_name flds =
  normalize (default "Unknown" (flds !! "lastName")) +:+ "_"
  +:+ normalize (default "" (flds !! "firstName")) +:+ "_"
  +:+ normalize (default "" (flds !! "degreeLevel")) +:+ "_"
  +:+ normalize (default "" (flds !! "studentType")).
Proof.
  unfold make_folder_name. cbn [PyStr.join].
  change (PyStr.replace "/" "_" (PyStr.replace " " "_" ?s)) with (normalize s).
  by rewrite !normalize_app.
Qed.

Lemma folder_key_normalize l f d s :
  folder_key l f d s =
  normalize l +:+ "_" +:+ normalize f +:+ "_" +:+ normalize d +:+ "_" +:+ normalize s.
Proof. unfold folder_key. by rewrite make_folder_name_normalize. Qed.

(** Two texts cut at their first underscore. *)
Lemma underscore_split a b x y :
  PyStr.contains "_" a = false → PyStr.contains "_" b = false →
  a +:+ "_" +:+ x = b +:+ "_" +:+ y → a = b ∧ x = y.
Proof.
  change ("_" +:+ x) with (String "_" x). change ("_" +:+ y) with (String "_" y).
  revert b. induction a as [|c a IH]; intros [|c' b];
    repeat (change ("" +:+ ?s) with s);
    repeat (change (String ?c0 ?a0 +:+ ?s) with (String c0 (a0 +:+ s))); simpl.
  - intros _ _ [= ->]. done.
  - intros _ Hb [= <- _]. done.
  - intros Ha _ [= -> _]. done.
  - intros Ha Hb [= -> Heq].
    apply orb_false_iff in Ha as [_ Ha]. apply orb_false_iff in Hb as [_ Hb].
    destruct (IH b Ha Hb Heq) as [-> ->]. done.
Qed.

Lemma plain_no_underscore s : plain s = true → PyStr.contains "_" s = false.
Proof.
  unfold plain. rewrite !andb_true_iff, !negb_true_iff. by intros [[? _] _].
Qed.

(** C3, as stated, fails: the key is not injective up to the replacement of
    spaces and slashes.  The two tuples below differ, also after that
    replacement in each field, and have the same key. *)
Lemma c3_counterexample :
  folder_key "a_b" "c" "d" "e" = folder_key "a" "b_c" "d" "e"
  ∧ (normalize "a_b", normalize "c", normalize "d", normalize "e")
    ≠ (normalize "a", normalize "b_c", normalize "d", normalize "e").
Proof. split; [vm_compute; reflexivity|vm_compute; discriminate]. Qed.

(** C3, amended: for all values of the four fields lastName, firstName,
    degreeLevel, studentType, the key is the four fields, each with its
    spaces and slashes replaced by underscores, joined in that order by
    underscores; the key of a form depends on these four fields only (an
    absent lastName reads as Unknown, another absent field as the empty
    text); the tuple (Nelson, Denise, MBA, MSOHQ) gives
    Nelson_Denise_MBA_MSOHQ; and two tuples whose first three fields hold no
    underscore, space or slash and that have the same key have the same
    first three fields and the same last field up to that replacement. *)
Theorem c3_folder_key :
  (∀ l f d s,
     folder_key l f d s =
       normalize l +:+ "_" +:+ normalize f +:+ "_" +:+ normalize d
         +:+ "_" +:+ normalize s)
  ∧ (∀ flds : gmap string string,
       make_folder_name flds =
         folder_key (default "Unknown" (flds !! "lastName"))
                    (default "" (flds !! "firstName"))
                    (default "" (flds !! "degreeLevel"))
                    (default "" (flds !! "studentType")))
  ∧ folder_key "Nelson" "Denise" "MBA" "MSOHQ" = "Nelson_Denise_MBA_MSOHQ"
  ∧ (∀ l1 f1 d1 s1 l2 f2 d2 s2,
       plain l1 = true → plain f1 = true → plain d1 = true →
       plain l2 = true → plain f2 = true → plain d2 = true →
       folder_key l1 f1 d1 s1 = folder_key l2 f2 d2 s2 →
       l1 = l2 ∧ f1 = f2 ∧ d1 = d2 ∧ normalize s1 = normalize s2).
Proof.
  split; [apply folder_key_normalize|].
  split.
  { intros flds. by rewrite folder_key_normalize, make_folder_name_normalize. }
  split; [vm_compute; reflexivity|].
  intros l1 f1 d1 s1 l2 f2 d2 s2 Hl1 Hf1 Hd1 Hl2 Hf2 Hd2.
  rewrite !folder_key_normalize.
  rewrite !(plain_normalize l1), !(plain_normalize f1), !(plain_normalize d1),
    !(plain_normalize l2), !(plain_normalize f2), !(plain_normalize d2) by done.
  intros H.
  apply underscore_split in H as [-> H]; [|by apply plain_no_underscore..].
  apply underscore_split in H as [-> H]; [|by apply plain_no_underscore..].
  apply underscore_split in H as [-> H]; [|by apply plain_no_underscore..].
  done.
Qed.

Lemma c3_folder_key_witness :
  folder_key "Nelson" "Denise" "MBA" "MS OHQ"
    = folder_key "Nelson" "Denise" "MBA" "MS/OHQ"
  ∧ "Nelson" = "Nelson" ∧ "Denise" = "Denise" ∧ "MBA" = "MBA"
  ∧ normalize "MS OHQ" = normalize "MS/OHQ".
Proof.
  split; [vm_compute; reflexivity|].
  apply (proj2 (proj2 (proj2 c3_folder_key))
           "Nelson" "Denise" "MBA" "MS OHQ" "Nelson" "Denise" "MBA" "MS/OHQ");
    vm_compute; reflexivity.
Defined.

(** ** The name of an uploaded file *)

Lemma string_app_nil_r s : s +:+ "" = s.
Proof.
  induction s as [|c s IH]; [done|].
  change (String c s +:+ "") with (String c (s +:+ "")). by rewrite IH.
Qed.

Lemma contains_app c s t :
  PyStr.contains c (s +:+ t) = PyStr.contains c s || PyStr.contains c t.
Proof.
  induction s as [|c' s IH]; [done|].
  change (String c' s +:+ t) with (String c' (s +:+ t)). simpl.
  rewrite IH. by rewrite orb_assoc.
Qed.

(** The text from the last occurrence of [c] on starts with [c]. *)
Lemma drop_rfind c s :
  0 ≤ PyStr.rfind c s → ∃ rest, PyStr.drop (PyStr.rfind c s) s = String c rest.
Proof.
  unfold PyStr.drop. induction s as [|c' s IH]; simpl; [lia|].
  destruct (0 <=? PyStr.rfind c s) eqn:Hr.
  - apply Z.leb_le in Hr. intros _. destruct (IH Hr) as [rest Hrest].
    replace (Z.to_nat (PyStr.rfind c s + 1)) with (S (Z.to_nat (PyStr.rfind c s))) by lia.
    simpl. eauto.
  - destruct (Ascii.eqb_spec c' c) as [->|]; [|lia]. intros _. simpl. eauto.
Qed.

Lemma splitext_scan_dot p dotIndex n i :
  (∃ rest, PyStr.drop dotIndex p = String "." rest) →
  splitext_scan p dotIndex n i = ""
  ∨ PyStr.contains "." (splitext_scan p dotIndex n i) = true.
Proof.
  intros [rest Hrest]. revert i. induction n as [|n IH]; intros i; simpl; [by left|].
  destruct (i <? dotIndex); [|by left].
  destruct (negb _); [|apply IH]. right. by rewrite Hrest.
Qed.

(** An extension is empty or holds a dot. *)
Lemma splitext_ext_dot p :
  splitext_ext p = "" ∨ PyStr.contains "." (splitext_ext p) = true.
Proof.
  unfold splitext_ext. destruct (_ <? _) eqn:Hlt; [|by left].
  apply splitext_scan_dot, drop_rfind. apply Z.ltb_lt in Hlt.
  assert (-1 ≤ PyStr.rfind "/" p); [|lia].
  clear. induction p as [|c p IH]; simpl; [lia|].
  destruct (0 <=? _) eqn:E; [apply Z.leb_le in E; lia|]. destruct (Ascii.eqb _ _); lia.
Qed.

(** The fallback name is not extended a second time. *)
Lemma fallback_name_stable base p :
  (if negb (PyStr.contains "." (base +:+ splitext_ext p))
   then (base +:+ splitext_ext p) +:+ splitext_ext p
   else base +:+ splitext_ext p) = base +:+ splitext_ext p.
Proof.
  destruct (splitext_ext_dot p) as [->|Hdot].
  - rewrite !string_app_nil_r. by destruct (negb _).
  - by rewrite contains_app, Hdot, orb_true_r.
Qed.

Lemma string_app_assoc s t u : (s +:+ t) +:+ u = s +:+ t +:+ u.
Proof.
  induction s as [|c s IH]; [done|].
  repeat change (String ?c0 ?s0 +:+ ?x) with (String c0 (s0 +:+ x)). by rewrite IH.
Qed.

Lemma target_filename_cases sub key k file :
  target_filename sub key k file =
  match fields sub !! (k +:+ "Filename") with
  | Some (String c n) =>
      if PyStr.contains "." (String c n)
      then String c n
      else String c n +:+ splitext_ext (filename file)
  | _ => key +:+ "-" +:+ k +:+ splitext_ext (filename file)
  end.
Proof.
  unfold target_filename.
  assert (Hfb :
    (if negb (PyStr.contains "." (key +:+ "-" +:+ k +:+ splitext_ext (filename file)))
     then (key +:+ "-" +:+ k +:+ splitext_ext (filename file))
            +:+ splitext_ext (filename file)
     else key +:+ "-" +:+ k +:+ splitext_ext (filename file))
    = key +:+ "-" +:+ k +:+ splitext_ext (filename file)).
  { rewrite <- !string_app_assoc. apply fallback_name_stable. }
  destruct (fields sub !! (k +:+ "Filename")) as [[|c n]|];
    cbv zeta; cbn [truthy negb default].
  - apply Hfb.
  - unfold id. generalize (PyStr.contains "." (String c n)). by intros [].
  - apply Hfb.
Qed.

Lemma slots_calls_create sub key folder_id ks r k n file :
  k ∈ ks → slot_upload sub key k = Some (n, file) →
  CFileCreate folder_id n file ∈ slots_calls sub key folder_id ks r.
Proof.
  intros Hk Hup. revert r. induction ks as [|k' ks IH]; intros r; simpl.
  - by apply not_elem_of_nil in Hk.
  - apply elem_of_app. apply elem_of_cons in Hk as [<-|Hk]; [left|right; by apply IH].
    unfold slot_calls. rewrite Hup. unfold upload_calls.
    apply list_elem_of_further, elem_of_app. right. apply list_elem_of_here.
Qed.

Lemma slot_upload_Some sub key k file :
  files sub !! k = Some file → filename file ≠ "" →
  slot_upload sub key k = Some (target_filename sub key k file, file).
Proof.
  intros Hf Hn. unfold slot_upload. rewrite Hf.
  by destruct (filename file).
Qed.

(** The log of a request is a beginning of its calls, and its stores are the
    result of the calls that completed. *)
Lemma handle_submit_log faults now sub r resp r' log :
  handle_submit faults now sub r = (resp, r', log) →
  log `prefix_of` submit_calls now sub r
  ∧ (r' = replay log r ∨ ∃ done c, log = done ++ [c] ∧ r' = replay done r).
Proof.
  rewrite handle_submit_exec. case_bool_decide as Hm; cbn [negb].
  - destruct (exec_calls _ _ _ _) as [[e|] [r1 log1]] eqn:E.
    + apply exec_calls_raise in E as (done & c & rest & Hcs & -> & -> & _).
      intros [= <- <- <-]. split; [|right; by exists done, c].
      exists rest. rewrite Hcs. simpl. by rewrite <- app_assoc.
    + apply exec_calls_ok in E as [-> ->]. intros [= <- <- <-]. split; [done|by left].
  - intros [= <- <- <-]. split; [apply prefix_nil|by left].
Qed.

Lemma slot_upload_inv sub key k n file :
  slot_upload sub key k = Some (n, file) →
  files sub !! k = Some file ∧ filename file ≠ ""
  ∧ n = target_filename sub key k file.
Proof.
  unfold slot_upload. destruct (files sub !! k) as [f|]; [|done].
  destruct (filename f) eqn:E; cbn [truthy]; [done|].
  intros [= <- <-]. by rewrite E.
Qed.

Lemma slots_calls_names sub key folder_id ks r c :
  c ∈ slots_calls sub key folder_id ks r → slot_call sub key folder_id ks c.
Proof.
  revert r. induction ks as [|k ks IH]; intros r; simpl.
  - by intros ?%elem_of_nil.
  - intros [Hin|Hin]%elem_of_app.
    + unfold slot_calls in Hin.
      destruct (slot_upload sub key k) as [[n file]|] eqn:Hup;
        [|by apply elem_of_nil in Hin].
      unfold upload_calls in Hin.
      apply elem_of_cons in Hin as [->|Hin].
      { split; [done|]. exists k, file. split; [left|done]. }
      apply elem_of_app in Hin as [Hin|Hin].
      * destruct (truthy _); [|by apply elem_of_nil in Hin].
        by apply list_elem_of_singleton in Hin as ->.
      * apply list_elem_of_singleton in Hin as ->.
        split; [done|]. exists k. split; [left|done].
    + specialize (IH _ Hin). destruct c; try done.
      * destruct IH as [? (k' & file & ? & ?)]. split; [done|].
        exists k', file. split; [by right|done].
      * destruct IH as [? (k' & ? & ?)]. split; [done|].
        exists k'. split; [by right|done].
Qed.

Lemma log_slot_call faults now sub r resp r' log c :
  handle_submit faults now sub r = (resp, r', log) →
  c ∈ log →
  (∃ fo n, c = CFileList fo n) ∨ (∃ fo n file, c = CFileCreate fo n file) →
  slot_call sub (make_folder_name (fields sub))
    (resolved_folder (make_folder_name (fields sub)) r) SLOTS c.
Proof.
  intros [[rest Hpre] _]%handle_submit_log Hin Hc.
  assert (Hin' : c ∈ submit_calls now sub r)
    by (rewrite Hpre; apply elem_of_app; by left).
  unfold submit_calls in Hin'.
  apply elem_of_app in Hin' as [Hin'|Hin'].
  { unfold folder_calls in Hin'. exfalso.
    destruct (negb _);
      repeat (apply elem_of_cons in Hin' as [->|Hin'];
              [by destruct Hc as [(? & ? & ?)|(? & ? & ? & ?)]|]);
      by apply elem_of_nil in Hin'. }
  apply elem_of_app in Hin' as [Hin'|Hin']; [by eapply slots_calls_names|].
  exfalso.
  repeat (apply elem_of_cons in Hin' as [->|Hin'];
          [by destruct Hc as [(? & ? & ?)|(? & ? & ? & ?)]|]).
  by apply elem_of_nil in Hin'.
Qed.

(** C5, as stated, fails twice.  With the field [nationalIDFilename] present
    and empty, the claim names the file by that field plus the extension,
    which is [.pdf]; the handler uses the fallback name.  With the field
    [.hidden], a name that has no extension, the claim appends the
    extension of the original file; the handler, which looks for a dot in
    the name, does not. *)
Lemma c5_counterexample :
  (fields blank_override_sub !! "nationalIDFilename" = Some ""
   ∧ claimed_filename blank_override_sub "Nelson_Denise_MBA_MSOHQ" "nationalID"
       (demo_file "id.pdf") = ".pdf"
   ∧ target_filename blank_override_sub "Nelson_Denise_MBA_MSOHQ" "nationalID"
       (demo_file "id.pdf") = "Nelson_Denise_MBA_MSOHQ-nationalID.pdf"
   ∧ map f_name (drive (handle_submit no_faults demo_now blank_override_sub
                          empty_remote).1.2)
     = [ "Nelson_Denise_MBA_MSOHQ"; "Nelson_Denise_MBA_MSOHQ-nationalID.pdf";
         "Nelson_Denise_MBA_MSOHQ-transcript1.pdf" ])
  ∧ (fields hidden_sub !! "nationalIDFilename" = Some ".hidden"
     ∧ splitext_ext ".hidden" = ""
     ∧ claimed_filename hidden_sub "Nelson_Denise_MBA_MSOHQ" "nationalID"
         (demo_file "id.pdf") = ".hidden.pdf"
     ∧ target_filename hidden_sub "Nelson_Denise_MBA_MSOHQ" "nationalID"
         (demo_file "id.pdf") = ".hidden"
     ∧ map f_name (drive (handle_submit no_faults demo_now hidden_sub
                            empty_remote).1.2)
       = [ "Nelson_Denise_MBA_MSOHQ"; ".hidden";
           "Nelson_Denise_MBA_MSOHQ-transcript1.pdf" ]).
Proof. vm_compute. done. Qed.

(** C5, amended: for every uploaded slot, the target filename is the
    [<slot>Filename] field when the form has it with a value that is not
    empty; when the field is absent or empty, the name is the folder key, a
    dash, the slot and the extension of the original file name; and in
    either case, if the chosen name holds no dot, the extension of the
    original file name is appended to it.  In every request, however it
    ends, each file looked up or created is named so for a slot that the
    request uploads, and a request that succeeds creates the file of every
    such slot under that name in the folder of the request. *)
Theorem c5_target_filename :
  (∀ sub key k file,
     target_filename sub key k file =
       let ext := splitext_ext (filename file) in
       let chosen :=
         match fields sub !! (k +:+ "Filename") with
         | Some (String c n) => String c n
         | _ => key +:+ "-" +:+ k +:+ ext
         end in
       if PyStr.contains "." chosen then chosen else chosen +:+ ext)
  ∧ (∀ faults now sub r resp r' log,
       handle_submit faults now sub r = (resp, r', log) →
       (∀ fo n, CFileList fo n ∈ log →
          ∃ k file, k ∈ SLOTS ∧ files sub !! k = Some file ∧ filename file ≠ ""
                    ∧ n = target_filename sub (make_folder_name (fields sub)) k file)
       ∧ (∀ fo n file, CFileCreate fo n file ∈ log →
            ∃ k, k ∈ SLOTS ∧ files sub !! k = Some file ∧ filename file ≠ ""
                 ∧ n = target_filename sub (make_folder_name (fields sub)) k file)
       ∧ (∀ links, resp = (JSuccess links, 200) →
          ∀ k file, k ∈ SLOTS → files sub !! k = Some file → filename file ≠ "" →
            CFileCreate (resolved_folder (make_folder_name (fields sub)) r)
              (target_filename sub (make_folder_name (fields sub)) k file) file
            ∈ log)).
Proof.
  split.
  { intros sub key k file. unfold target_filename. cbv zeta.
    destruct (fields sub !! (k +:+ "Filename")) as [[|c n]|];
      cbn [truthy negb default]; unfold id;
      by destruct (PyStr.contains "." _). }
  intros faults now sub r resp r' log Hrun. split_and!.
  - intros fo n Hin.
    destruct (log_slot_call _ _ _ _ _ _ _ _ Hrun Hin) as [_ (k & file & Hk & Hup)];
      [left; eauto|].
    apply slot_upload_inv in Hup as (? & ? & ?). by exists k, file.
  - intros fo n file Hin.
    destruct (log_slot_call _ _ _ _ _ _ _ _ Hrun Hin) as [_ (k & Hk & Hup)];
      [right; eauto|].
    apply slot_upload_inv in Hup as (? & ? & ?). by exists k.
  - intros links -> k file Hk Hf Hn.
    apply handle_submit_success in Hrun as (_ & _ & -> & _).
    unfold submit_calls. apply elem_of_app. right. apply elem_of_app. left.
    eapply slots_calls_create; [exact Hk|by apply slot_upload_Some].
Qed.

Lemma c5_target_filename_witness :
  (∀ fo n, CFileList fo n ∈ demo_log →
     ∃ k file, k ∈ SLOTS ∧ files demo_sub !! k = Some file ∧ filename file ≠ ""
               ∧ n = target_filename demo_sub (make_folder_name (fields demo_sub))
                       k file)
  ∧ (∀ fo n file, CFileCreate fo n file ∈ demo_log →
       ∃ k, k ∈ SLOTS ∧ files demo_sub !! k = Some file ∧ filename file ≠ ""
            ∧ n = target_filename demo_sub (make_folder_name (fields demo_sub))
                    k file)
  ∧ (∀ links, ((JSuccess demo_links, 200) : Response) = (JSuccess links, 200) →
     ∀ k file, k ∈ SLOTS → files demo_sub !! k = Some file → filename file ≠ "" →
       CFileCreate (resolved_folder (make_folder_name (fields demo_sub)) empty_remote)
         (target_filename demo_sub (make_folder_name (fields demo_sub)) k file) file
       ∈ demo_log).
Proof.
  apply (proj2 c5_target_filename no_faults demo_now demo_sub empty_remote
           (JSuccess demo_links, 200) demo_final demo_log).
  vm_compute. reflexivity.
Defined.

(** ** The row and the links *)

Lemma replay_drive_calls cs r : Forall drive_call cs → sheet (replay cs r) = sheet r.
Proof.
  intros H. revert r. induction H as [|c cs Hc _ IH]; intros r; [done|].
  change (replay (c :: cs) r) with (replay cs (apply_call c r)).
  rewrite IH. by destruct c.
Qed.

Lemma folder_calls_drive key r : Forall drive_call (folder_calls key r).
Proof.
  unfold folder_calls. repeat constructor. destruct (negb _); repeat constructor.
Qed.

Lemma upload_calls_drive folder_id n file r :
  Forall drive_call (upload_calls folder_id n file r).
Proof.
  unfold upload_calls. constructor; [done|]. apply Forall_app. split.
  - destruct (truthy _); repeat constructor.
  - repeat constructor.
Qed.

Lemma slots_calls_drive sub key folder_id ks r :
  Forall drive_call (slots_calls sub key folder_id ks r).
Proof.
  revert r. induction ks as [|k ks IH]; intros r; simpl; [constructor|].
  apply Forall_app. split; [|apply IH].
  unfold slot_calls. destruct (slot_upload sub key k) as [[n file]|];
    [apply upload_calls_drive|constructor].
Qed.

(** A request that succeeds appends the row of its fields and links. *)
Lemma success_sheet faults now sub r links r' log :
  handle_submit faults now sub r = ((JSuccess links, 200), r', log) →
  sheet r' = sheet r ++ [row_of now (fields sub) links].
Proof.
  intros (_ & -> & -> & ->)%handle_submit_success.
  unfold submit_calls. rewrite !replay_app.
  change (replay [CBuild "sheets"; CSheetAppend ?row] ?r0)
    with {| drive := drive r0; sheet := sheet r0 ++ [row] |}.
  cbn [sheet]. f_equal.
  rewrite replay_drive_calls by apply slots_calls_drive.
  by rewrite replay_drive_calls by apply folder_calls_drive.
Qed.

Lemma slots_links_dom sub key folder_id ks links r :
  dom (slots_links sub key folder_id ks links r) = list_to_set ks ∪ dom links.
Proof.
  revert links r. induction ks as [|k ks IH]; intros links r; simpl.
  - by rewrite (left_id_L ∅ (∪)).
  - rewrite IH, dom_insert_L.
    by rewrite (assoc_L (∪)), (comm_L (∪) (list_to_set ks)).
Qed.

Lemma slots_links_blank sub key folder_id ks links r k :
  slot_upload sub key k = None →
  k ∈ ks ∨ links !! k = Some "" →
  slots_links sub key folder_id ks links r !! k = Some "".
Proof.
  intros Hup. revert links r. induction ks as [|k' ks IH]; intros links r Hk; simpl.
  - destruct Hk as [Hk|Hk]; [by apply not_elem_of_nil in Hk|done].
  - apply IH. destruct (decide (k' = k)) as [->|Hne].
    + right. rewrite lookup_insert_eq. unfold slot_link. by rewrite Hup.
    + destruct Hk as [Hk|Hk].
      * apply elem_of_cons in Hk as [?|?]; [congruence|by left].
      * right. by rewrite lookup_insert_ne.
Qed.

Lemma success_links_blank faults now sub r links r' log k :
  handle_submit faults now sub r = ((JSuccess links, 200), r', log) →
  k ∈ SLOTS → files sub !! k = None → links !! k = Some "".
Proof.
  intros (_ & -> & _ & _)%handle_submit_success Hk Hf.
  apply slots_links_blank; [|by left]. unfold slot_upload. by rewrite Hf.
Qed.

Lemma success_terms faults now sub r links r' log :
  handle_submit faults now sub r = ((JSuccess links, 200), r', log) →
  fields sub !! "termsConditions" = Some "true".
Proof.
  intros (Hm & _)%handle_submit_success.
  destruct (decide (fields sub !! "termsConditions" = Some "true")) as [|Hne]; [done|].
  assert ("termsConditions" ∈ missing sub) as Hin by (apply elem_of_missing; auto).
  rewrite Hm in Hin. by apply not_elem_of_nil in Hin.
Qed.

(** C6: a request that succeeds appends exactly one row to the sheet; the
    row has 22 cells, in the fixed order, and the cell of an optional field
    that the form does not have is the empty string. *)
Theorem c6_row_layout faults now sub r links r' log :
  handle_submit faults now sub r = ((JSuccess links, 200), r', log) →
  let get k := default "" (fields sub !! k) in
  let link k := default "" (links !! k) in
  ∃ row,
    sheet r' = sheet r ++ [row]
    ∧ row = [ get "firstName"; get "middleName"; get "lastName";
              get "additionalName"; get "studentType"; get "degreeLevel";
              get "gender"; get "birthDate"; get "personalEmail"; get "notes";
              link "nationalID"; get "nationalCountry";
              link "transcript1"; get "t1Country";
              link "transcript2"; get "t2Country";
              link "transcript3"; get "t3Country";
              link "transcript4"; get "t4Country";
              get "termsConditions"; now ]
    ∧ length row = 22%nat
    ∧ (∀ k i, (k, i) ∈ [ ("middleName", 1%nat); ("additionalName", 3%nat);
                         ("notes", 9%nat); ("t2Country", 15%nat);
                         ("t3Country", 17%nat); ("t4Country", 19%nat) ] →
              fields sub !! k = None → row !! i = Some "").
Proof.
  intros Hok get link. eexists. split; [by eapply success_sheet|].
  split; [reflexivity|]. split; [reflexivity|].
  intros k i Hin Hnone.
  repeat (apply elem_of_cons in Hin as [[= -> ->]|Hin];
          [unfold row_of; cbn [lookup list_lookup]; by rewrite Hnone|]).
  by apply not_elem_of_nil in Hin.
Qed.

(** C7: in a request that succeeds, the links of the response have the five
    slots as their keys, and a slot for which the request carries no file
    has the empty string as its link, in the response and in the row. *)
Theorem c7_links_total faults now sub r links r' log :
  handle_submit faults now sub r = ((JSuccess links, 200), r', log) →
  dom links = list_to_set SLOTS
  ∧ ∃ row,
      sheet r' = sheet r ++ [row]
      ∧ (∀ k i, (k, i) ∈ [ ("nationalID", 10%nat); ("transcript1", 12%nat);
                           ("transcript2", 14%nat); ("transcript3", 16%nat);
                           ("transcript4", 18%nat) ] →
                files sub !! k = None →
                links !! k = Some "" ∧ row !! i = Some "").
Proof.
  intros Hok. split.
  { apply handle_submit_success in Hok as (_ & -> & _ & _).
    unfold submit_links. by rewrite slots_links_dom, dom_empty_L, (right_id_L ∅ (∪)). }
  eexists. split; [by eapply success_sheet|].
  intros k i Hin Hnone.
  assert (Hk : k ∈ SLOTS).
  { unfold SLOTS.
    repeat (apply elem_of_cons in Hin as [[= -> ->]|Hin]; [in_list|]).
    by apply not_elem_of_nil in Hin. }
  pose proof (success_links_blank _ _ _ _ _ _ _ k Hok Hk Hnone) as Hl.
  split; [done|].
  repeat (apply elem_of_cons in Hin as [[= -> ->]|Hin];
          [unfold row_of; cbn [lookup list_lookup]; by rewrite Hl|]).
  by apply not_elem_of_nil in Hin.
Qed.

(** C10: in a request that succeeds, the cells 11, 13, 15, 17 and 19 of the
    appended row are the links of the response for the five slots, in their
    order, and cell 21 is the string [true]. *)
Theorem c10_row_links faults now sub r links r' log :
  handle_submit faults now sub r = ((JSuccess links, 200), r', log) →
  ∃ row,
    sheet r' = sheet r ++ [row]
    ∧ length row = 22%nat
    ∧ row !! 10%nat = links !! "nationalID"
    ∧ row !! 12%nat = links !! "transcript1"
    ∧ row !! 14%nat = links !! "transcript2"
    ∧ row !! 16%nat = links !! "transcript3"
    ∧ row !! 18%nat = links !! "transcript4"
    ∧ row !! 20%nat = Some "true".
Proof.
  intros Hok. eexists. split; [by eapply success_sheet|].
  split; [reflexivity|].
  assert (Hs : ∀ k, k ∈ SLOTS → Some (default "" (links !! k)) = links !! k).
  { intros k Hk. pose proof Hok as (_ & -> & _ & _)%handle_submit_success.
    by destruct (submit_links_is_Some sub r k Hk) as [l ->]. }
  unfold row_of. cbn [lookup list_lookup].
  rewrite (success_terms _ _ _ _ _ _ _ Hok).
  repeat split; try (apply Hs; unfold SLOTS; in_list). 
Qed.

Lemma c6_row_layout_witness :
  ∃ row, sheet demo_final = sheet empty_remote ++ [row] ∧ length row = 22%nat.
Proof.
  destruct (c6_row_layout no_faults demo_now demo_sub empty_remote
              demo_links demo_final demo_log) as (row & Hs & _ & Hl & _).
  - vm_compute. reflexivity.
  - exists row. split; assumption.
Defined.

Lemma c7_links_total_witness :
  dom demo_links = list_to_set SLOTS
  ∧ ∃ row,
      sheet demo_final = sheet empty_remote ++ [row]
      ∧ (∀ k i, (k, i) ∈ [ ("nationalID", 10%nat); ("transcript1", 12%nat);
                           ("transcript2", 14%nat); ("transcript3", 16%nat);
                           ("transcript4", 18%nat) ] →
                files demo_sub !! k = None →
                demo_links !! k = Some "" ∧ row !! i = Some "").
Proof.
  apply (c7_links_total no_faults demo_now demo_sub empty_remote
           demo_links demo_final demo_log).
  vm_compute. reflexivity.
Defined.

Lemma c10_row_links_witness :
  ∃ row,
    sheet demo_final = sheet empty_remote ++ [row]
    ∧ length row = 22%nat
    ∧ row !! 10%nat = demo_links !! "nationalID"
    ∧ row !! 12%nat = demo_links !! "transcript1"
    ∧ row !! 14%nat = demo_links !! "transcript2"
    ∧ row !! 16%nat = demo_links !! "transcript3"
    ∧ row !! 18%nat = demo_links !! "transcript4"
    ∧ row !! 20%nat = Some "true".
Proof.
  apply (c10_row_links no_faults demo_now demo_sub empty_remote
           demo_links demo_final demo_log).
  vm_compute. reflexivity.
Defined.

(** ** The three responses *)

(** A call that raises after the folder was created leaves the folder in
    the store. *)
Example partial_effects_remain :
  handle_submit fault_at_3 demo_now demo_sub empty_remote =
  ((JError "HttpError 503", 500),
   {| drive := [new_folder [] "Nelson_Denise_MBA_MSOHQ"]; sheet := [] |},
   [ CBuild "drive"; CFolderList "Nelson_Denise_MBA_MSOHQ";
     CFolderCreate "Nelson_Denise_MBA_MSOHQ";
     CFileList (gen_id []) "Nelson_Denise_MBA_MSOHQ-nationalID.pdf" ]).
Proof. vm_compute. reflexivity. Qed.

(** The calls made before the one that raises all complete. *)
Lemma exec_calls_raise_full faults cs r log e r' log' :
  exec_calls faults cs r log = (Some e, (r', log')) →
  ∃ done c rest,
    cs = done ++ c :: rest ∧ r' = replay done r ∧ log' = log ++ done ++ [c]
    ∧ faults (length (log ++ done)) = Some e
    ∧ ∀ m, (length log ≤ m < length (log ++ done))%nat → faults m = None.
Proof.
  revert r log. induction cs as [|c cs IH]; intros r log; simpl; [done|].
  destruct (faults (length log)) as [e'|] eqn:Hf.
  - intros [= <- <- <-]. exists [], c, cs. rewrite app_nil_r.
    split_and!; try done. intros m Hm. lia.
  - intros (done & c' & rest & -> & -> & -> & Hf' & Hbefore)%IH.
    exists (c :: done), c', rest. rewrite <- !app_assoc in *.
    split_and!; try done.
    intros m Hm. destruct (decide (m = length log)) as [->|]; [done|].
    apply Hbefore. rewrite !length_app in *. cbn [length] in *. lia.
Qed.

(** When no call raises, no position of the log holds a fault. *)
Lemma exec_calls_ok_quiet faults cs r log r' log' :
  exec_calls faults cs r log = (None, (r', log')) →
  ∀ m, (length log ≤ m < length log')%nat → faults m = None.
Proof.
  revert r log. induction cs as [|c cs IH]; intros r log; simpl.
  - intros [= <- <-] m Hm. lia.
  - destruct (faults (length log)) as [e'|] eqn:Hf; [done|].
    intros E m Hm. destruct (decide (m = length log)) as [->|]; [done|].
    apply (IH _ _ E). rewrite length_app. cbn [length]. lia.
Qed.

(** C8: the handler answers in one of three ways.  Either no call raised,
    it answers 200 with [success] and the links, it made all its calls and
    the stores are the result of them; or the validation fails and it
    answers 400 with the message [Missing required fields: ] and the list,
    having made no call; or one call raised, whichever it is, the calls
    before it completed, it answers 500 with the text of that exception,
    that call is the last one made, and the stores are the result of the
    calls before it: nothing that was done is undone. *)
Theorem c8_three_responses faults now sub r :
  let '(resp, r', log) := handle_submit faults now sub r in
  (resp = (JSuccess (submit_links sub r), 200) ∧ missing sub = []
   ∧ log = submit_calls now sub r
   ∧ (∀ n, (n < length log)%nat → faults n = None)
   ∧ r' = replay log r)
  ∨ (resp = (JError ("Missing required fields: "
                     +:+ PyStr.repr_list (missing sub)), 400)
     ∧ missing sub ≠ [] ∧ r' = r ∧ log = [])
  ∨ (∃ e done c rest,
       resp = (JError e, 500) ∧ missing sub = []
       ∧ log = done ++ [c] ∧ submit_calls now sub r = done ++ c :: rest
       ∧ faults (length done) = Some e
       ∧ (∀ n, (n < length done)%nat → faults n = None)
       ∧ r' = replay done r).
Proof.
  rewrite handle_submit_exec. case_bool_decide as Hm; cbn [negb].
  - destruct (exec_calls _ _ _ _) as [[e|] [r1 log1]] eqn:E.
    + right; right.
      apply exec_calls_raise_full in E
        as (done & c & rest & Hcs & -> & -> & Hf & Hbefore).
      exists e, done, c, rest. split_and!; try done.
      intros n Hn. apply Hbefore. cbn [length app]. lia.
    + left. pose proof (exec_calls_ok_quiet _ _ _ _ _ _ E) as Hquiet.
      apply exec_calls_ok in E as [-> ->]. split_and!; try done.
      intros n Hn. apply Hquiet. cbn [length]. lia.
  - right; left. by repeat split.
Qed.

(** ** The store *)

Lemma id_of_length_length n : String.length (id_of_length n) = S n.
Proof. induction n as [|n IH]; simpl; [done|]. by rewrite IH. Qed.

Lemma longest_id_root d : (String.length BASE_DRIVE_FOLDER_ID ≤ longest_id d)%nat.
Proof.
  unfold longest_id. induction d as [|f d IH]; cbn [foldr]; [done|]. lia.
Qed.

Lemma longest_id_elem d f : f ∈ d → (String.length (f_id f) ≤ longest_id d)%nat.
Proof.
  induction d as [|g d IH]; [by intros ?%not_elem_of_nil|].
  unfold longest_id in *.
  intros [->|Hin]%elem_of_cons; cbn [foldr]; [lia|].
  specialize (IH Hin). lia.
Qed.

Lemma gen_id_fresh d : gen_id d ∉ f_id <$> d.
Proof.
  intros (f & Hid & Hf)%list_elem_of_fmap.
  apply longest_id_elem in Hf. apply (f_equal String.length) in Hid.
  unfold gen_id in Hid. rewrite id_of_length_length in Hid. lia.
Qed.

Lemma gen_id_root d : gen_id d ≠ BASE_DRIVE_FOLDER_ID.
Proof.
  intros H. apply (f_equal String.length) in H.
  unfold gen_id in H. rewrite id_of_length_length in H.
  pose proof (longest_id_root d). lia.
Qed.

Lemma gen_id_nonempty d : gen_id d ≠ "".
Proof. unfold gen_id. by destruct (longest_id d). Qed.

Lemma gen_id_safe d : query_safe (gen_id d) = true.
Proof. unfold gen_id. by induction (longest_id d). Qed.

Lemma wf_drive_delete i d : wf_drive d → wf_drive (delete_id i d).
Proof.
  intros [Hnd Hne]. split.
  - eapply sublist_NoDup; [exact Hnd|]. apply fmap_sublist, sublist_filter.
  - rewrite Forall_forall in *. intros f [_ Hf]%list_elem_of_filter. by apply Hne.
Qed.

Lemma wf_drive_snoc d f : wf_drive d → f_id f = gen_id d → wf_drive (d ++ [f]).
Proof.
  intros [Hnd Hne] Hid. split.
  - rewrite fmap_app. apply NoDup_app. split; [done|]. split.
    + intros x Hx [->|[]%not_elem_of_nil]%elem_of_cons.
      rewrite Hid in Hx. by apply gen_id_fresh in Hx.
    + apply NoDup_singleton.
  - apply Forall_app. split; [done|]. constructor; [|constructor].
    rewrite Hid. split; [apply gen_id_nonempty|apply gen_id_safe].
Qed.

Lemma wf_drive_safe d f : wf_drive d → f ∈ d → query_safe (f_id f) = true.
Proof. intros [_ Hne] Hf. rewrite Forall_forall in Hne. by apply Hne. Qed.

(** In a well-formed store an identifier names one object. *)
Lemma wf_drive_same_id d f g :
  wf_drive d → f ∈ d → g ∈ d → f_id f = f_id g → f = g.
Proof.
  intros [Hnd _]. induction d as [|h d IH]; [by intros ?%not_elem_of_nil|].
  rewrite fmap_cons in Hnd. apply NoDup_cons in Hnd as [Hh Hnd].
  intros [->|Hf]%elem_of_cons [->|Hg]%elem_of_cons Heq; [done| | |by apply IH].
  - exfalso. apply Hh. rewrite Heq. by apply (list_elem_of_fmap_2 f_id).
  - exfalso. apply Hh. rewrite <- Heq. by apply (list_elem_of_fmap_2 f_id).
Qed.

Lemma first_id_Some (P : DriveFile → Prop) `{∀ f, Decision (P f)} d i :
  first_id (filter P d) = Some i → ∃ f, f ∈ d ∧ P f ∧ f_id f = i.
Proof.
  destruct (filter P d) as [|f l] eqn:E; [done|]. intros [= <-].
  assert (f ∈ filter P d) as [? ?]%list_elem_of_filter by (rewrite E; left).
  eauto.
Qed.

Lemma truthy_Some i : truthy (Some i) = true ↔ i ≠ "".
Proof. destruct i; simpl; split; (done || congruence). Qed.

Lemma wf_drive_truthy (P : DriveFile → Prop) `{∀ f, Decision (P f)} d :
  wf_drive d →
  truthy (first_id (filter P d)) = bool_decide (filter P d ≠ []).
Proof.
  intros [_ Hne]. destruct (filter P d) as [|f l] eqn:E; [done|]. simpl.
  assert (f ∈ filter P d) as [_ Hf]%list_elem_of_filter by (rewrite E; left).
  rewrite Forall_forall in Hne. destruct (Hne f Hf) as [Hid _].
  by destruct (f_id f).
Qed.

(** ** Uploads replace *)

Lemma filter_all {A} (P : A → Prop) `{∀ x, Decision (P x)} (l : list A) :
  (∀ x, x ∈ l → P x) → filter P l = l.
Proof.
  induction l as [|x l IH]; intros Hall; [done|].
  rewrite filter_cons, decide_True by (apply Hall; left).
  f_equal. apply IH. intros y Hy. apply Hall. by right.
Qed.

Lemma filter_delete_id (P : DriveFile → Prop) `{∀ f, Decision (P f)} i d :
  filter P (delete_id i d) = delete_id i (filter P d).
Proof.
  unfold delete_id. induction d as [|f d IH]; [done|].
  rewrite !filter_cons.
  destruct (decide (f_id f ≠ i)), (decide (P f));
    rewrite ?filter_cons, ?decide_True, ?decide_False by done; by rewrite ?IH.
Qed.

Lemma count_named_snoc folder_id n d f :
  count_named folder_id n (d ++ [f]) =
  (count_named folder_id n d + (if is_file_named folder_id n f then 1 else 0))%nat.
Proof.
  unfold count_named. rewrite filter_app, length_app. f_equal.
  rewrite filter_cons, filter_nil.
  destruct (is_file_named folder_id n f).
  - by rewrite decide_True by done.
  - by rewrite decide_False by (by intros []).
Qed.

Lemma is_file_named_new_file folder_id n d folder_id' n' file :
  is_file_named folder_id n (new_file d folder_id' n' file)
  = bool_decide (n' = n) && bool_decide (folder_id = folder_id').
Proof.
  unfold is_file_named, new_file. cbn [f_name f_parents f_trashed negb].
  rewrite andb_true_r. f_equal. apply bool_decide_ext.
  by rewrite list_elem_of_singleton.
Qed.

Lemma before_create_drive folder_id n r :
  drive (before_create folder_id n r) =
  if truthy (found_file folder_id n r)
  then delete_id (default "" (found_file folder_id n r)) (drive r)
  else drive r.
Proof. unfold before_create. by destruct (truthy _). Qed.

Lemma before_create_sheet folder_id n r : sheet (before_create folder_id n r) = sheet r.
Proof. unfold before_create. by destruct (truthy _). Qed.

Lemma upload_replay folder_id n file r :
  replay (upload_calls folder_id n file r) r =
  apply_call (CFileCreate folder_id n file) (before_create folder_id n r).
Proof.
  unfold upload_calls, before_create.
  change (replay (CFileList folder_id n :: ?l) r) with (replay l r).
  rewrite replay_app. by destruct (truthy _).
Qed.

Lemma upload_drive folder_id n file r :
  drive (replay (upload_calls folder_id n file r) r) =
  drive (before_create folder_id n r)
  ++ [new_file (drive (before_create folder_id n r)) folder_id n file].
Proof. by rewrite upload_replay. Qed.

Lemma wf_before_create folder_id n r :
  wf_drive (drive r) → wf_drive (drive (before_create folder_id n r)).
Proof.
  intros Hwf. rewrite before_create_drive.
  destruct (truthy _); [by apply wf_drive_delete|done].
Qed.

Lemma wf_upload folder_id n file r :
  wf_drive (drive r) → wf_drive (drive (replay (upload_calls folder_id n file r) r)).
Proof.
  intros Hwf. rewrite upload_drive.
  apply wf_drive_snoc; [by apply wf_before_create|done].
Qed.

(** When at most one file has the name, none has it once the one found is
    deleted. *)
Lemma count_before_create_same folder_id n r :
  query_safe folder_id = true → query_safe n = true →
  wf_drive (drive r) →
  (count_named folder_id n (drive r) ≤ 1)%nat →
  count_named folder_id n (drive (before_create folder_id n r)) = 0%nat.
Proof.
  intros HF Hn Hwf Hle. rewrite before_create_drive.
  rewrite found_file_safe by done. unfold count_named in *.
  rewrite (wf_drive_truthy _ _ Hwf).
  destruct (filter _ (drive r)) as [|g [|g' l]] eqn:E; simpl in Hle; [| |lia].
  - rewrite bool_decide_eq_false_2 by (by intros []). by rewrite E.
  - rewrite bool_decide_eq_true_2 by done.
    rewrite filter_delete_id, E. cbn [first_id default from_option id].
    unfold delete_id. rewrite filter_cons, filter_nil.
    by rewrite decide_False by (by intros []).
Qed.

(** The file deleted for one name is none of those that have another
    name. *)
Lemma count_before_create_other folder_id n n' r :
  query_safe folder_id = true → query_safe n = true →
  wf_drive (drive r) → n' ≠ n →
  count_named folder_id n' (drive (before_create folder_id n r))
  = count_named folder_id n' (drive r).
Proof.
  intros HF Hn Hwf Hne. rewrite before_create_drive.
  destruct (truthy _) eqn:Ht; [|done].
  destruct (found_file folder_id n r) as [i|] eqn:Hfound; [|done].
  rewrite found_file_safe in Hfound by done.
  apply first_id_Some in Hfound as (g & Hg & Hgn & <-).
  unfold count_named. rewrite filter_delete_id. cbn [default from_option id].
  unfold delete_id. f_equal. apply filter_all.
  intros x [Hx Hxd]%list_elem_of_filter Heq.
  assert (x = g) as -> by (by apply (wf_drive_same_id (drive r))).
  unfold is_file_named in Hx, Hgn.
  apply Is_true_true in Hx, Hgn.
  rewrite !andb_true_iff, !bool_decide_eq_true in Hx, Hgn.
  destruct Hx as [[Hx _] _], Hgn as [[Hg' _] _]. congruence.
Qed.

Lemma upload_count_same folder_id n file r :
  query_safe folder_id = true → query_safe n = true →
  wf_drive (drive r) →
  (count_named folder_id n (drive r) ≤ 1)%nat →
  count_named folder_id n (drive (replay (upload_calls folder_id n file r) r)) = 1%nat.
Proof.
  intros HF Hn Hwf Hle. rewrite upload_drive, count_named_snoc.
  rewrite count_before_create_same by done.
  rewrite is_file_named_new_file. by rewrite !bool_decide_eq_true_2.
Qed.

Lemma upload_count_other folder_id n n' file r :
  query_safe folder_id = true → query_safe n = true →
  wf_drive (drive r) → n' ≠ n →
  count_named folder_id n' (drive (replay (upload_calls folder_id n file r) r))
  = count_named folder_id n' (drive r).
Proof.
  intros HF Hn Hwf Hne. rewrite upload_drive, count_named_snoc.
  rewrite count_before_create_other by done.
  rewrite is_file_named_new_file. rewrite bool_decide_eq_false_2 by congruence.
  simpl. lia.
Qed.

Lemma slot_calls_cases sub key folder_id k r :
  (slot_upload sub key k = None ∧ slot_calls sub key folder_id k r = [])
  ∨ (∃ n file, slot_upload sub key k = Some (n, file)
               ∧ slot_calls sub key folder_id k r = upload_calls folder_id n file r).
Proof.
  unfold slot_calls. destruct (slot_upload sub key k) as [[n file]|]; eauto.
Qed.

(** The loop over the slots keeps the store well formed, keeps a name that
    at most one file has in that state, and leaves exactly one file under
    the name of every slot it uploads. *)
Lemma slots_count sub key folder_id n ks r :
  query_safe folder_id = true →
  (∀ k m file, k ∈ ks → slot_upload sub key k = Some (m, file) →
               query_safe m = true) →
  wf_drive (drive r) →
  (count_named folder_id n (drive r) ≤ 1)%nat →
  let r' := replay (slots_calls sub key folder_id ks r) r in
  wf_drive (drive r')
  ∧ (count_named folder_id n (drive r') ≤ 1)%nat
  ∧ (count_named folder_id n (drive r) = 1%nat →
     count_named folder_id n (drive r') = 1%nat)
  ∧ (∀ k file, k ∈ ks → slot_upload sub key k = Some (n, file) →
     count_named folder_id n (drive r') = 1%nat).
Proof.
  intros HF. revert r.
  induction ks as [|k' ks IH]; intros r Hsafe Hwf Hle; cbn zeta.
  { cbn [slots_calls]. split_and!; try done.
    by intros k file ?%not_elem_of_nil. }
  assert (Hsafe' : ∀ k m file, k ∈ ks → slot_upload sub key k = Some (m, file) →
                               query_safe m = true).
  { intros k m file Hk. apply Hsafe. by right. }
  cbn [slots_calls]. rewrite replay_app.
  destruct (slot_calls_cases sub key folder_id k' r)
    as [[Hnone ->]|(m & file' & Hsome & ->)].
  - destruct (IH r Hsafe' Hwf Hle) as (Hwf' & Hle' & Hkeep & Hone).
    split_and!; try done.
    intros k file [->|Hk]%elem_of_cons Hup; [congruence|by eapply Hone].
  - assert (Hm : query_safe m = true) by (eapply (Hsafe k'); [left|exact Hsome]).
    set (r1 := replay (upload_calls folder_id m file' r) r).
    assert (Hwf1 : wf_drive (drive r1)) by by apply wf_upload.
    destruct (decide (m = n)) as [->|Hne].
    + assert (H1 : count_named folder_id n (drive r1) = 1%nat)
        by by apply upload_count_same.
      destruct (IH r1 Hsafe' Hwf1) as (Hwf' & Hle' & Hkeep & Hone); [lia|].
      split_and!; auto.
    + assert (H1 : count_named folder_id n (drive r1)
                   = count_named folder_id n (drive r))
        by by apply upload_count_other.
      destruct (IH r1 Hsafe' Hwf1) as (Hwf' & Hle' & Hkeep & Hone); [lia|].
      split_and!; try done.
      * intros Heq. apply Hkeep. lia.
      * intros k file [->|Hk]%elem_of_cons Hup; [congruence|by eapply Hone].
Qed.

Lemma safe_uploads_slot sub k n file :
  safe_uploads sub = true → k ∈ SLOTS →
  slot_upload sub (make_folder_name (fields sub)) k = Some (n, file) →
  query_safe n = true.
Proof.
  unfold safe_uploads. rewrite forallb_forall. intros Hall Hk Hup.
  apply list_elem_of_In in Hk. specialize (Hall k Hk). by rewrite Hup in Hall.
Qed.

Lemma found_folder_in key r i :
  found_folder key r = Some i → ∃ f, f ∈ drive r ∧ f_id f = i.
Proof.
  unfold found_folder. intros (f & Hf & _ & Hid)%first_id_Some. eauto.
Qed.

(** In a well-formed store the identifier of the folder of a request holds
    no quote and no backslash. *)
Lemma resolved_folder_safe key r :
  wf_drive (drive r) → query_safe (resolved_folder key r) = true.
Proof.
  intros Hwf. unfold resolved_folder.
  destruct (negb _); [apply gen_id_safe|].
  destruct (found_folder key r) as [i|] eqn:E; [|done].
  apply found_folder_in in E as (f & Hf & <-). by eapply wf_drive_safe.
Qed.

Lemma folder_step_drive key r :
  drive (replay (folder_calls key r) r) =
  if negb (truthy (found_folder key r))
  then drive r ++ [new_folder (drive r) key]
  else drive r.
Proof. unfold folder_calls. by destruct (negb _). Qed.

Lemma wf_folder_step key r :
  wf_drive (drive r) → wf_drive (drive (replay (folder_calls key r) r)).
Proof.
  intros Hwf. rewrite folder_step_drive.
  destruct (negb _); [by apply wf_drive_snoc|done].
Qed.

(** A new folder is no file of the folder of the request. *)
Lemma count_folder_step key n r :
  count_named (resolved_folder key r) n (drive (replay (folder_calls key r) r))
  = count_named (resolved_folder key r) n (drive r).
Proof.
  rewrite folder_step_drive. unfold resolved_folder.
  destruct (negb _); [|done].
  rewrite count_named_snoc. unfold is_file_named, new_folder.
  cbn [f_name f_parents f_trashed].
  rewrite (bool_decide_eq_false_2 (gen_id (drive r) ∈ [BASE_DRIVE_FOLDER_ID])).
  - rewrite andb_false_r. simpl. lia.
  - intros ?%list_elem_of_singleton. by eapply gen_id_root.
Qed.

Lemma success_drive faults now sub r links r' log :
  handle_submit faults now sub r = ((JSuccess links, 200), r', log) →
  drive r' =
  drive (replay (slots_calls sub (make_folder_name (fields sub))
                   (resolved_folder (make_folder_name (fields sub)) r) SLOTS
                   (replay (folder_calls (make_folder_name (fields sub)) r) r))
           (replay (folder_calls (make_folder_name (fields sub)) r) r)).
Proof.
  intros (_ & _ & -> & ->)%handle_submit_success.
  unfold submit_calls. by rewrite !replay_app.
Qed.




(** ** Folder resolution *)

Lemma keep_to_app folder_id cs1 cs2 r :
  keep_to folder_id (cs1 ++ cs2) r ↔
  keep_to folder_id cs1 r ∧ keep_to folder_id cs2 (replay cs1 r).
Proof.
  revert r. induction cs1 as [|c cs1 IH]; intros r; simpl; [tauto|].
  rewrite IH. change (replay (c :: cs1) r) with (replay cs1 (apply_call c r)). tauto.
Qed.

Lemma keep_to_prefix folder_id cs1 cs2 r :
  cs1 `prefix_of` cs2 → keep_to folder_id cs2 r → keep_to folder_id cs1 r.
Proof. intros [k ->] H. by apply keep_to_app in H as [? _]. Qed.

Lemma keep_to_quiet folder_id cs r :
  keep_to folder_id cs r →
  folder_creates cs = []
  ∧ ∀ fo n file, CFileCreate fo n file ∈ cs → fo = folder_id.
Proof.
  revert r. induction cs as [|c cs IH]; intros r; simpl.
  - intros _. split; [done|]. by intros fo n file ?%not_elem_of_nil.
  - intros [Hc [Hcs Hin]%IH]. split.
    + unfold folder_creates in *. cbn [omap list_omap]. by destruct c.
    + intros fo n file [<-|?]%elem_of_cons; [exact Hc|by eapply Hin].
Qed.

Lemma upload_calls_keep_to folder_id n file r :
  query_safe n = true →
  keep_to folder_id (upload_calls folder_id n file r) r.
Proof.
  intros Hn. unfold upload_calls. split; [done|]. cbn [apply_call].
  destruct (found_file folder_id n r) as [i|] eqn:Hfound.
  - destruct (truthy (Some i)).
    + split; [by exists n|]. by split.
    + by split.
  - by split.
Qed.

Lemma slots_calls_keep_to sub key folder_id ks r :
  (∀ k m file, k ∈ ks → slot_upload sub key k = Some (m, file) →
               query_safe m = true) →
  keep_to folder_id (slots_calls sub key folder_id ks r) r.
Proof.
  revert r. induction ks as [|k ks IH]; intros r Hsafe; simpl; [done|].
  apply keep_to_app. split.
  - unfold slot_calls. destruct (slot_upload sub key k) as [[n file]|] eqn:E; [|done].
    apply upload_calls_keep_to. eapply (Hsafe k); [left|exact E].
  - apply IH. intros k0 m file Hk0. apply Hsafe. by right.
Qed.

(** The folder the lookup finds has the root among its parents. *)
Lemma resolves_to_folder key folder_id r :
  resolves_to key folder_id r →
  ∃ h rest, filter (fun f => is_folder_named key f) (drive r) = h :: rest
            ∧ f_id h = folder_id ∧ h ∈ drive r
            ∧ BASE_DRIVE_FOLDER_ID ∈ f_parents h.
Proof.
  intros (Hkey & _ & _ & Hfound). rewrite found_folder_safe in Hfound by done.
  destruct (filter _ (drive r)) as [|h rest] eqn:E; [done|].
  injection Hfound as Hid. exists h, rest.
  assert (h ∈ filter (fun f => is_folder_named key f) (drive r))
    as [Hh ?]%list_elem_of_filter by (rewrite E; left).
  split_and!; try done.
  unfold is_folder_named in Hh. apply Is_true_true in Hh.
  rewrite !andb_true_iff, !bool_decide_eq_true in Hh. tauto.
Qed.

Lemma resolves_to_not_root key folder_id r :
  resolves_to key folder_id r → folder_id ≠ BASE_DRIVE_FOLDER_ID.
Proof.
  intros Hres. destruct (resolves_to_folder _ _ _ Hres) as (h & _ & _ & <- & Hh & Hroot).
  destruct Hres as (_ & _ & Hac & _). unfold acyclic1 in Hac.
  rewrite Forall_forall in Hac. intros Heq. apply (Hac h Hh). by rewrite Heq.
Qed.

Lemma resolves_to_nonempty key folder_id r :
  resolves_to key folder_id r → folder_id ≠ "".
Proof.
  intros Hres. destruct (resolves_to_folder _ _ _ Hres) as (h & _ & _ & <- & Hh & _).
  destruct Hres as (_ & [_ Hne] & _). rewrite Forall_forall in Hne. by apply Hne.
Qed.

Lemma resolves_to_safe key folder_id r :
  resolves_to key folder_id r → query_safe folder_id = true.
Proof.
  intros Hres. destruct (resolves_to_folder _ _ _ Hres) as (h & _ & _ & <- & Hh & _).
  destruct Hres as (_ & Hwf & _). by eapply wf_drive_safe.
Qed.

(** A call of the uploads leaves the folder where the lookup finds it. *)
Lemma resolves_to_call key folder_id c r :
  resolves_to key folder_id r → keeps_to folder_id c r →
  resolves_to key folder_id (apply_call c r).
Proof.
  intros Hres Hc.
  destruct (resolves_to_folder _ _ _ Hres) as (h & rest & Hfil & Hid & Hh & Hroot).
  pose proof (resolves_to_safe _ _ _ Hres) as HF.
  pose proof Hres as (Hkey & Hwf & Hac & Hfound).
  destruct c as [s|n|n|fo n|i|fo n file|row]; simpl in Hc; try done.
  - (* a file is deleted *)
    destruct Hc as (n & Hn & Hfile). rewrite found_file_safe in Hfile by done.
    apply first_id_Some in Hfile as (g & Hg & Hgn & Hgi).
    assert (Hne : f_id h ≠ i).
    { intros Heq. assert (g = h) as -> by (apply (wf_drive_same_id (drive r)); congruence).
      unfold is_file_named in Hgn. apply Is_true_true in Hgn.
      rewrite !andb_true_iff, !bool_decide_eq_true in Hgn.
      unfold acyclic1 in Hac. rewrite Forall_forall in Hac.
      apply (Hac h Hh). rewrite Hid. tauto. }
    split_and!; cbn [apply_call drive]; [done| | |].
    + by apply wf_drive_delete.
    + unfold acyclic1 in *. rewrite Forall_forall in *.
      intros f [_ Hf]%list_elem_of_filter. by apply Hac.
    + rewrite found_folder_safe by done. cbn [drive]. rewrite filter_delete_id, Hfil.
      unfold delete_id. rewrite filter_cons, decide_True by done. simpl. by f_equal.
  - (* a file is created *)
    subst fo. split_and!; cbn [apply_call drive]; [done| | |].
    + by apply wf_drive_snoc.
    + unfold acyclic1 in *. apply Forall_app. split; [done|].
      constructor; [|constructor]. cbn [new_file f_id f_parents].
      intros Heq%list_elem_of_singleton.
      apply (gen_id_fresh (drive r)). rewrite Heq, <- Hid.
      by apply list_elem_of_fmap_2.
    + rewrite found_folder_safe by done. cbn [drive].
      rewrite filter_app, Hfil. simpl. by f_equal.
Qed.

Lemma resolves_to_calls key folder_id cs r :
  resolves_to key folder_id r → keep_to folder_id cs r →
  resolves_to key folder_id (replay cs r).
Proof.
  revert r. induction cs as [|c cs IH]; intros r Hres; simpl; [done|].
  intros [Hc Hcs]. change (replay (c :: cs) r) with (replay cs (apply_call c r)).
  apply IH; [by apply resolves_to_call|done].
Qed.

Lemma count_folders_call key folder_id c r :
  folder_id ≠ BASE_DRIVE_FOLDER_ID → keeps_to folder_id c r →
  (count_folders key (drive (apply_call c r)) ≤ count_folders key (drive r))%nat.
Proof.
  intros Hroot Hc. unfold count_folders.
  destruct c as [s|n|n|fo n|i|fo n file|row]; simpl in Hc; try done; cbn [apply_call drive].
  - rewrite filter_delete_id. apply length_filter.
  - subst fo. rewrite filter_app, length_app, filter_cons, filter_nil.
    rewrite decide_False; [simpl; lia|].
    unfold is_folder_named, new_file. cbn [f_parents].
    rewrite (bool_decide_eq_false_2 (BASE_DRIVE_FOLDER_ID ∈ [folder_id])).
    + rewrite andb_false_r. simpl. by intros [].
    + intros ?%list_elem_of_singleton. congruence.
Qed.

Lemma count_folders_calls key folder_id cs r :
  folder_id ≠ BASE_DRIVE_FOLDER_ID → keep_to folder_id cs r →
  (count_folders key (drive (replay cs r)) ≤ count_folders key (drive r))%nat.
Proof.
  intros Hroot. revert r. induction cs as [|c cs IH]; intros r; simpl; [done|].
  intros [Hc Hcs]. change (replay (c :: cs) r) with (replay cs (apply_call c r)).
  etrans; [by apply IH|by eapply count_folders_call].
Qed.

Lemma found_folder_truthy key r :
  wf_drive (drive r) →
  truthy (found_folder key r) = true ↔ ∃ i, found_folder key r = Some i.
Proof.
  intros Hwf. unfold found_folder. rewrite (wf_drive_truthy _ _ Hwf).
  rewrite bool_decide_eq_true. destruct (filter _ (drive r)); simpl.
  - split; [done|]. by intros [? ?].
  - split; [eauto|done].
Qed.

Lemma is_folder_named_new_folder key d :
  is_folder_named key (new_folder d key) = true.
Proof.
  unfold is_folder_named, new_folder. cbn [f_name f_mime f_parents f_trashed].
  rewrite !bool_decide_eq_true_2; [done|apply list_elem_of_here|done|done].
Qed.

(** The resolution leaves a store in which the lookup finds the folder it
    chose. *)
Lemma resolves_to_folder_step key r :
  query_safe key = true →
  wf_drive (drive r) → acyclic1 (drive r) →
  resolves_to key (resolved_folder key r) (replay (folder_calls key r) r).
Proof.
  intros Hkey Hwf Hac. unfold resolves_to. split; [done|].
  rewrite found_folder_safe by done. rewrite folder_step_drive.
  unfold resolved_folder.
  pose proof (found_folder_truthy key r Hwf) as Ht.
  destruct (truthy (found_folder key r)) eqn:E; cbn [negb].
  - destruct Ht as [[i Hi] _]; [done|]. split_and!; try done.
    rewrite Hi. rewrite found_folder_safe in Hi by done. exact Hi.
  - assert (Hnone : filter (fun f => is_folder_named key f) (drive r) = []).
    { rewrite found_folder_safe in Ht by done.
      destruct (filter _ (drive r)) as [|h l]; [done|].
      destruct Ht as [_ Ht]. discriminate Ht. eauto. }
    split_and!.
    + by apply wf_drive_snoc.
    + apply Forall_app. split; [done|]. constructor; [|constructor].
      cbn [new_folder f_id f_parents]. intros ?%list_elem_of_singleton.
      by eapply gen_id_root.
    + rewrite filter_app, Hnone, filter_cons, filter_nil.
      by rewrite decide_True by (by rewrite is_folder_named_new_folder).
Qed.

Lemma submit_calls_keep now sub r :
  safe_uploads sub = true →
  ∃ up, submit_calls now sub r = folder_calls (make_folder_name (fields sub)) r ++ up
        ∧ keep_to (resolved_folder (make_folder_name (fields sub)) r) up
            (replay (folder_calls (make_folder_name (fields sub)) r) r).
Proof.
  intros Hsafe. eexists. split; [reflexivity|]. apply keep_to_app. split.
  - apply slots_calls_keep_to. intros k m file Hk Hup. by eapply safe_uploads_slot.
  - simpl. tauto.
Qed.

(** When the lookup finds the folder, the resolution is the lookup alone. *)
Lemma folder_calls_found key folder_id r :
  resolves_to key folder_id r →
  folder_calls key r = [CBuild "drive"; CFolderList key]
  ∧ resolved_folder key r = folder_id.
Proof.
  intros Hres. pose proof (resolves_to_nonempty _ _ _ Hres) as Hne.
  destruct Hres as (_ & _ & _ & Hfound). unfold folder_calls, resolved_folder.
  rewrite Hfound. by destruct folder_id.
Qed.

Lemma make_folder_name_ext flds1 flds2 :
  flds2 !! "lastName" = flds1 !! "lastName" →
  flds2 !! "firstName" = flds1 !! "firstName" →
  flds2 !! "degreeLevel" = flds1 !! "degreeLevel" →
  flds2 !! "studentType" = flds1 !! "studentType" →
  make_folder_name flds2 = make_folder_name flds1.
Proof. unfold make_folder_name. by intros -> -> -> ->. Qed.

(** What a request that got past its resolution leaves behind. *)
Lemma after_resolution faults now sub r resp r' log :
  safe_uploads sub = true →
  handle_submit faults now sub r = (resp, r', log) →
  resolution_done (make_folder_name (fields sub)) r log →
  ∃ done,
    keep_to (resolved_folder (make_folder_name (fields sub)) r) done
      (replay (folder_calls (make_folder_name (fields sub)) r) r)
    ∧ r' = replay done (replay (folder_calls (make_folder_name (fields sub)) r) r)
    ∧ folder_creates log = folder_creates (folder_calls (make_folder_name (fields sub)) r).
Proof.
  intros Hsafe Hrun (rest & Hrest & Hlog).
  set (key := make_folder_name (fields sub)) in *.
  apply handle_submit_log in Hrun as [Hpre Hr'].
  destruct (submit_calls_keep now sub r Hsafe) as (up & Hcs & Hup).
  fold key in Hcs, Hup.
  rewrite Hcs, Hlog in Hpre. apply prefix_app_inv in Hpre.
  pose proof (keep_to_prefix _ _ _ _ Hpre Hup) as Hkrest.
  assert (Hq : folder_creates log = folder_creates (folder_calls key r)).
  { rewrite Hlog. unfold folder_creates. rewrite omap_app.
    destruct (keep_to_quiet _ _ _ Hkrest) as [Hnil _].
    unfold folder_creates in Hnil. by rewrite Hnil, app_nil_r. }
  destruct Hr' as [->|(done & c & Hdone & ->)].
  - exists rest. split_and!; try done. by rewrite Hlog, replay_app.
  - destruct rest as [|c' rest _] using rev_ind; [done|].
    rewrite Hlog, app_assoc in Hdone. apply app_inj_tail in Hdone as [<- _].
    exists rest. rewrite replay_app. split_and!; try done.
    eapply keep_to_prefix; [|exact Hkrest]. by exists [c'].
Qed.

Lemma found_folder_count key folder_id r :
  query_safe key = true →
  found_folder key r = Some folder_id → (1 ≤ count_folders key (drive r))%nat.
Proof.
  intros Hkey. rewrite found_folder_safe by done.
  unfold count_folders. destruct (filter _ (drive r)); [done|].
  simpl. lia.
Qed.

(** A request that succeeds got past the resolution of its folder. *)
Lemma success_resolution_done faults now sub r links r' log :
  handle_submit faults now sub r = ((JSuccess links, 200), r', log) →
  resolution_done (make_folder_name (fields sub)) r log.
Proof.
  intros (_ & _ & -> & _)%handle_submit_success.
  eexists. split; [|reflexivity]. intros H.
  apply (f_equal length) in H. rewrite length_app in H. simpl in H. lia.
Qed.

(** C4 fails on the code for a folder key with a quote.  The key is pasted
    between quotes into the query without escaping, so for the last name
    [a\'b] the lookup asks for the name [a'b_Denise_MBA_MSOHQ], while the
    folder is created under the name [a\'b_Denise_MBA_MSOHQ]: the second of
    two identical submissions does not find the folder of the first and
    creates a second folder of the same name. *)
Lemma c4_duplicate_folder :
  let key := make_folder_name (fields escaped_sub) in
  let '(resp1, r1, log1) := handle_submit no_faults demo_now escaped_sub empty_remote in
  let '(resp2, r2, log2) := handle_submit no_faults demo_now escaped_sub r1 in
  key = "a\'b_Denise_MBA_MSOHQ"
  ∧ parse_query (folder_query key)
    = Some [ TName "a'b_Denise_MBA_MSOHQ"; TMime FOLDER_MIME;
             TParent BASE_DRIVE_FOLDER_ID; TTrashed false ]
  ∧ (∃ links, resp1 = (JSuccess links, 200))
  ∧ folder_creates log1 = [key]
  ∧ count_folders key (drive r1) = 1%nat
  ∧ found_folder key r1 = None
  ∧ (∃ links, resp2 = (JSuccess links, 200))
  ∧ folder_creates log2 = [key]
  ∧ count_folders key (drive r2) = 2%nat.
Proof. vm_compute. split_and!; try done; eexists; reflexivity. Qed.

(** X18: for a folder key and upload names without quote or backslash, in a
    store whose objects have distinct identifiers that are not empty and
    hold no quote or backslash, and where no object is its own parent, a
    request that gets past the resolution of its folder has reused the
    folder that the lookup found, creating none, or, when the lookup found
    none, has created exactly one folder with the key under the root; and a
    request with the same identity fields that runs after it finds that same
    folder, creates no folder and creates its files in that folder only. *)
Theorem folder_resolution_idempotent
    faults1 now1 sub1 faults2 now2 sub2 r0 resp1 r1 log1 resp2 r2 log2 :
  wf_drive (drive r0) → acyclic1 (drive r0) →
  query_safe (make_folder_name (fields sub1)) = true →
  safe_uploads sub1 = true → safe_uploads sub2 = true →
  fields sub2 !! "lastName" = fields sub1 !! "lastName" →
  fields sub2 !! "firstName" = fields sub1 !! "firstName" →
  fields sub2 !! "degreeLevel" = fields sub1 !! "degreeLevel" →
  fields sub2 !! "studentType" = fields sub1 !! "studentType" →
  handle_submit faults1 now1 sub1 r0 = (resp1, r1, log1) →
  resolution_done (make_folder_name (fields sub1)) r0 log1 →
  handle_submit faults2 now2 sub2 r1 = (resp2, r2, log2) →
  let key := make_folder_name (fields sub1) in
  let folder_id := resolved_folder key r0 in
  match found_folder key r0 with
  | Some id =>
      folder_id = id ∧ folder_creates log1 = []
      ∧ (count_folders key (drive r1) ≤ count_folders key (drive r0))%nat
  | None =>
      folder_id = gen_id (drive r0) ∧ folder_creates log1 = [key]
      ∧ count_folders key (drive r1) = 1%nat
  end
  ∧ found_folder key r1 = Some folder_id
  ∧ folder_creates log2 = []
  ∧ (∀ fo n file, CFileCreate fo n file ∈ log2 → fo = folder_id)
  ∧ (count_folders key (drive r2) ≤ count_folders key (drive r1))%nat.
Proof.
  intros Hwf Hac Hkey Hs1 Hs2 E1 E2 E3 E4 Hrun1 Hdone Hrun2 key F.
  destruct (after_resolution _ _ _ _ _ _ _ Hs1 Hrun1 Hdone)
    as (done & Hkeep & Hr1 & Hfc1).
  fold key in Hkeep, Hr1, Hfc1, Hkey. fold F in Hkeep.
  pose proof (resolves_to_folder_step key r0 Hkey Hwf Hac) as Hres_a. fold F in Hres_a.
  assert (Hres1 : resolves_to key F r1).
  { rewrite Hr1. by apply resolves_to_calls. }
  pose proof (resolves_to_not_root _ _ _ Hres1) as Hroot.
  assert (Hle : (count_folders key (drive r1)
                 ≤ count_folders key (drive (replay (folder_calls key r0) r0)))%nat).
  { rewrite Hr1. by apply (count_folders_calls key F). }
  split.
  { pose proof (found_folder_truthy key r0 Hwf) as Ht.
    rewrite Hfc1. rewrite folder_step_drive in Hle.
    unfold F, resolved_folder, folder_calls.
    destruct (found_folder key r0) as [id|] eqn:Hfound.
    - assert (Htr : truthy (Some id) = true) by (apply Ht; eauto).
      rewrite Htr in *. cbn [negb] in *. by split_and!.
    - cbn [truthy negb] in *. split_and!; try done.
      destruct Hres1 as (_ & _ & _ & Hf1). apply found_folder_count in Hf1; [|done].
      assert (count_folders key (drive r0 ++ [new_folder (drive r0) key]) = 1%nat);
        [|lia].
      rewrite found_folder_safe in Hfound by done.
      unfold count_folders in *.
      rewrite filter_app, filter_cons, filter_nil.
      rewrite decide_True by (by rewrite is_folder_named_new_folder).
      by destruct (filter _ (drive r0)). }
  split; [apply Hres1|].
  apply handle_submit_log in Hrun2 as [Hpre2 Hr2].
  destruct (submit_calls_keep now2 sub2 r1 Hs2) as (up & Hcs & Hup).
  rewrite (make_folder_name_ext _ _ E1 E2 E3 E4) in Hcs, Hup. fold key in Hcs, Hup.
  destruct (folder_calls_found key F r1 Hres1) as [Hfc HF2].
  rewrite Hfc in Hcs, Hup. rewrite HF2 in Hup.
  assert (Hk2 : keep_to F (submit_calls now2 sub2 r1) r1).
  { rewrite Hcs. split; [done|]. split; [done|]. exact Hup. }
  pose proof (keep_to_prefix _ _ _ _ Hpre2 Hk2) as Hklog.
  destruct (keep_to_quiet _ _ _ Hklog) as [Hq1 Hq2].
  split; [done|]. split; [done|].
  destruct Hr2 as [->|(done2 & c & -> & ->)].
  - by apply (count_folders_calls key F).
  - apply (count_folders_calls key F); [done|].
    by apply keep_to_app in Hklog as [? _].
Qed.

Lemma x18_folder_resolution_idempotent_witness :
  match found_folder (make_folder_name (fields demo_sub)) empty_remote with
  | Some id =>
      resolved_folder (make_folder_name (fields demo_sub)) empty_remote = id
      ∧ folder_creates demo_log = []
      ∧ (count_folders (make_folder_name (fields demo_sub)) (drive demo_final)
         ≤ count_folders (make_folder_name (fields demo_sub)) (drive empty_remote))%nat
  | None =>
      resolved_folder (make_folder_name (fields demo_sub)) empty_remote
      = gen_id (drive empty_remote)
      ∧ folder_creates demo_log = [make_folder_name (fields demo_sub)]
      ∧ count_folders (make_folder_name (fields demo_sub)) (drive demo_final) = 1%nat
  end
  ∧ found_folder (make_folder_name (fields demo_sub)) demo_final
    = Some (resolved_folder (make_folder_name (fields demo_sub)) empty_remote)
  ∧ folder_creates (submit_calls demo_now demo_sub demo_final) = []
  ∧ (∀ fo n file,
       CFileCreate fo n file ∈ submit_calls demo_now demo_sub demo_final →
       fo = resolved_folder (make_folder_name (fields demo_sub)) empty_remote)
  ∧ (count_folders (make_folder_name (fields demo_sub))
       (drive (replay (submit_calls demo_now demo_sub demo_final) demo_final))
     ≤ count_folders (make_folder_name (fields demo_sub)) (drive demo_final))%nat.
Proof.
  apply (folder_resolution_idempotent no_faults demo_now demo_sub
           no_faults demo_now demo_sub
           empty_remote (JSuccess demo_links, 200) demo_final demo_log
           (JSuccess (submit_links demo_sub demo_final), 200)
           (replay (submit_calls demo_now demo_sub demo_final) demo_final)
           (submit_calls demo_now demo_sub demo_final)).
  - split; [apply NoDup_nil_2|apply Forall_nil_2].
  - apply Forall_nil_2.
  - vm_compute. reflexivity.
  - vm_compute. reflexivity.
  - vm_compute. reflexivity.
  - reflexivity.
  - reflexivity.
  - reflexivity.
  - reflexivity.
  - vm_compute. reflexivity.
  - exists (drop 3 demo_log). split; [vm_compute; discriminate|vm_compute; reflexivity].
  - vm_compute. reflexivity.
Defined.

(** * Further properties of the code *)

(** ** The folder name, once more *)

Lemma replace_removes a b s : a ≠ b → PyStr.contains a (PyStr.replace a b s) = false.
Proof.
  intros Hne. induction s as [|c s IH]; simpl; [done|]. rewrite IH, orb_false_r.
  destruct (Ascii.eqb_spec c a) as [->|Hc].
  - apply Ascii.eqb_neq. congruence.
  - by apply Ascii.eqb_neq.
Qed.

Lemma replace_keeps_absent a b c s :
  c ≠ b → PyStr.contains c s = false → PyStr.contains c (PyStr.replace a b s) = false.
Proof.
  intros Hne. induction s as [|c' s IH]; simpl; [done|].
  intros [Hc Hs]%orb_false_iff. rewrite (IH Hs), orb_false_r.
  destruct (Ascii.eqb c' a); [|done]. apply Ascii.eqb_neq. congruence.
Qed.

(** X1: whatever the fields are, the folder name holds no space and no
    slash. *)
Theorem folder_name_clean flds :
  PyStr.contains " " (make_folder_name flds) = false
  ∧ PyStr.contains "/" (make_folder_name flds) = false.
Proof.
  unfold make_folder_name. split.
  - apply replace_keeps_absent; [done|]. by apply replace_removes.
  - by apply replace_removes.
Qed.

(** ** Validation, once more *)

Lemma missing_nil_required sub k :
  missing sub = [] → k ∈ required →
  truthy (fields sub !! k) = true ∨ file_truthy (files sub !! k) = true.
Proof.
  intros Hnil Hk.
  destruct (truthy (fields sub !! k)) eqn:E1; [by left|].
  destruct (file_truthy (files sub !! k)) eqn:E2; [by right|].
  assert (k ∈ missing sub) as Hin by (apply elem_of_missing; auto).
  rewrite Hnil in Hin. by apply not_elem_of_nil in Hin.
Qed.

(** X2: the validation passes exactly when every required name has a form
    value that is not empty or a file with a file name that is not empty,
    and [termsConditions] is the string [true]. *)
Theorem validation_passes_iff sub :
  missing sub = [] ↔
  (∀ k, k ∈ required →
        truthy (fields sub !! k) = true ∨ file_truthy (files sub !! k) = true)
  ∧ fields sub !! "termsConditions" = Some "true".
Proof.
  split.
  - intros Hnil. split; [intros k; by apply missing_nil_required|].
    destruct (decide (fields sub !! "termsConditions" = Some "true")); [done|].
    assert ("termsConditions" ∈ missing sub) as Hin by (apply elem_of_missing; auto).
    rewrite Hnil in Hin. by apply not_elem_of_nil in Hin.
  - intros [Hreq Hterms]. destruct (missing sub) as [|k l] eqn:E; [done|].
    assert (k ∈ missing sub) as Hin by (rewrite E; left).
    apply elem_of_missing in Hin as [(Hk & H1 & H2)|[_ Hne]]; [|done].
    destruct (Hreq k Hk); congruence.
Qed.

(** X3: a request passes the validation without a [lastName] form field
    only when a file was sent under that name, and its folder is then named
    after [Unknown]. *)
Theorem folder_name_unknown sub :
  missing sub = [] → fields sub !! "lastName" = None →
  file_truthy (files sub !! "lastName") = true
  ∧ make_folder_name (fields sub) =
      "Unknown_" +:+ normalize (default "" (fields sub !! "firstName")) +:+ "_"
      +:+ normalize (default "" (fields sub !! "degreeLevel")) +:+ "_"
      +:+ normalize (default "" (fields sub !! "studentType")).
Proof.
  intros Hnil Hnone. split.
  - destruct (missing_nil_required sub "lastName" Hnil) as [H|H];
      [unfold required; in_list| |done].
    by rewrite Hnone in H.
  - rewrite make_folder_name_normalize, Hnone. reflexivity.
Qed.

Lemma x3_folder_name_unknown_witness :
  file_truthy (files lastname_file_sub !! "lastName") = true
  ∧ make_folder_name (fields lastname_file_sub) =
      "Unknown_" +:+ normalize (default "" (fields lastname_file_sub !! "firstName"))
      +:+ "_"
      +:+ normalize (default "" (fields lastname_file_sub !! "degreeLevel")) +:+ "_"
      +:+ normalize (default "" (fields lastname_file_sub !! "studentType")).
Proof.
  apply (folder_name_unknown lastname_file_sub).
  - vm_compute. reflexivity.
  - vm_compute. reflexivity.
Defined.

Lemma exec_calls_no_fault faults cs r log :
  (∀ n, faults n = None) →
  exec_calls faults cs r log = (None, (replay cs r, log ++ cs)).
Proof.
  intros Hf. revert r log. induction cs as [|c cs IH]; intros r log; simpl.
  - by rewrite app_nil_r.
  - rewrite Hf, IH. by rewrite <- app_assoc.
Qed.

(** X4: when no call raises, a submission that passes the validation is
    answered 200 with the links, after the calls of the request in their
    order. *)
Theorem valid_submission_succeeds faults now sub r :
  (∀ n, faults n = None) → missing sub = [] →
  handle_submit faults now sub r =
    ((JSuccess (submit_links sub r), 200),
     replay (submit_calls now sub r) r, submit_calls now sub r).
Proof.
  intros Hf Hm. rewrite handle_submit_exec, Hm.
  rewrite bool_decide_eq_true_2 by done. cbn [negb].
  by rewrite exec_calls_no_fault.
Qed.

Lemma x4_valid_submission_succeeds_witness :
  handle_submit no_faults demo_now demo_sub empty_remote =
    ((JSuccess (submit_links demo_sub empty_remote), 200),
     replay (submit_calls demo_now demo_sub empty_remote) empty_remote,
     submit_calls demo_now demo_sub empty_remote).
Proof.
  apply (valid_submission_succeeds no_faults demo_now demo_sub empty_remote).
  - intros n. reflexivity.
  - vm_compute. reflexivity.
Defined.

(** ** The name of an uploaded file, once more *)

Lemma string_app_nonempty s t : s ≠ "" → s +:+ t ≠ "".
Proof. by destruct s. Qed.

(** X5: the name under which a file is stored is never empty, and it holds
    a dot whenever the original file name has an extension. *)
Theorem target_filename_sound sub key k file :
  target_filename sub key k file ≠ ""
  ∧ (splitext_ext (filename file) ≠ "" →
     PyStr.contains "." (target_filename sub key k file) = true).
Proof.
  rewrite target_filename_cases.
  assert (Hext : splitext_ext (filename file) ≠ "" →
                 PyStr.contains "." (splitext_ext (filename file)) = true).
  { by destruct (splitext_ext_dot (filename file)). }
  assert (Hfb : key +:+ "-" +:+ k +:+ splitext_ext (filename file) ≠ ""
          ∧ (splitext_ext (filename file) ≠ "" →
             PyStr.contains "." (key +:+ "-" +:+ k +:+ splitext_ext (filename file))
             = true)).
  { split.
    - rewrite <- string_app_assoc. apply string_app_nonempty.
      destruct key; [done|]. done.
    - intros H. rewrite !contains_app, (Hext H). by rewrite !orb_true_r. }
  destruct (fields sub !! (k +:+ "Filename")) as [[|c n]|]; try done.
  destruct (PyStr.contains "." (String c n)) eqn:E.
  - by split.
  - split; [done|]. intros H. by rewrite contains_app, (Hext H), orb_true_r.
Qed.

(** ** One upload *)

Lemma upload_ok faults file folder_id n r log link r' log' :
  upload_file_to_drive faults file folder_id n (r, log) = (Ok link, (r', log')) →
  r' = replay (upload_calls folder_id n file r) r
  ∧ link = upload_link folder_id n r
  ∧ log' = log ++ upload_calls folder_id n file r.
Proof.
  rewrite (runs_upload faults file folder_id n r log). unfold exec.
  destruct (exec_calls _ _ _ _) as [[e|] [r1 log1]] eqn:E; [done|].
  apply exec_calls_ok in E as [-> ->]. by intros [= <- <- <-].
Qed.

(** X6: in a store whose identifiers are distinct and not empty, for a
    folder identifier and a name that hold no quote and no backslash, after
    an upload that returns, under a name that at most one file of the folder
    had, the folder holds exactly one file of that name: it has the bytes
    and the MIME type of the upload, a lookup of the name finds it, and the
    link returned carries its identifier.  The sheet is as it was. *)
Theorem upload_then_lookup faults file folder_id n r log link r' log' :
  query_safe folder_id = true →
  query_safe n = true →
  wf_drive (drive r) →
  (count_named folder_id n (drive r) ≤ 1)%nat →
  upload_file_to_drive faults file folder_id n (r, log) = (Ok link, (r', log')) →
  ∃ i,
    link = file_link i
    ∧ found_file folder_id n r' = Some i
    ∧ filter (fun f => is_file_named folder_id n f) (drive r')
      = [ {| f_id := i; f_name := n; f_mime := mimetype file;
             f_parents := [folder_id]; f_trashed := false;
             f_bytes := stream file |} ]
    ∧ sheet r' = sheet r.
Proof.
  intros HF Hn Hwf Hle (-> & -> & _)%upload_ok.
  exists (gen_id (drive (before_create folder_id n r))).
  assert (Hfil : filter (fun f => is_file_named folder_id n f)
                   (drive (replay (upload_calls folder_id n file r) r))
                 = [new_file (drive (before_create folder_id n r)) folder_id n file]).
  { rewrite upload_drive, filter_app.
    pose proof (count_before_create_same folder_id n r HF Hn Hwf Hle) as H0.
    unfold count_named in H0. apply nil_length_inv in H0. rewrite H0.
    rewrite filter_cons, filter_nil, decide_True; [done|].
    rewrite is_file_named_new_file. by rewrite !bool_decide_eq_true_2. }
  split_and!; [done| |exact Hfil|].
  - rewrite found_file_safe by done. by rewrite Hfil.
  - rewrite upload_replay. cbn [apply_call sheet]. apply before_create_sheet.
Qed.

(** X7: an upload that returns, for a folder identifier and a name that
    hold no quote and no backslash, removes from such a store at most the
    object that its lookup found, when that object is the parent of none:
    every object with another name, outside the folder or in the trash is
    still there.  (The lookup does not ask for the kind of the object, so
    what it finds can be a folder, and the service deletes a folder with
    what it holds; [delete_id] removes the one object.) *)
Theorem upload_keeps_others faults file folder_id n r log link r' log' f :
  query_safe folder_id = true →
  query_safe n = true →
  wf_drive (drive r) →
  (∀ i h, found_file folder_id n r = Some i → h ∈ drive r → i ∉ f_parents h) →
  upload_file_to_drive faults file folder_id n (r, log) = (Ok link, (r', log')) →
  f ∈ drive r →
  f_name f ≠ n ∨ folder_id ∉ f_parents f ∨ f_trashed f = true →
  f ∈ drive r'.
Proof.
  intros HF Hsafe Hwf _ (-> & _ & _)%upload_ok Hf Hother.
  rewrite upload_drive. apply elem_of_app. left.
  rewrite before_create_drive. destruct (truthy _) eqn:Ht; [|done].
  destruct (found_file folder_id n r) as [i|] eqn:Hfound; [|done].
  cbn [default from_option id]. unfold delete_id. apply list_elem_of_filter.
  split; [|done]. intros Heq.
  rewrite found_file_safe in Hfound by done.
  apply first_id_Some in Hfound as (g & Hg & Hgn & Hgi).
  assert (f = g) as -> by (apply (wf_drive_same_id (drive r)); congruence).
  unfold is_file_named in Hgn. apply Is_true_true in Hgn.
  rewrite !andb_true_iff, !bool_decide_eq_true, negb_true_iff in Hgn.
  destruct Hgn as [[Hn Hp] Ht']. destruct Hother as [?|[?|?]]; congruence.
Qed.

(** X8: the replacement is not atomic.  When the lookup finds a file, the
    deletion completes and the creation raises, the upload raises that
    exception, the file that was found is gone and nothing took its
    place. *)
Theorem upload_create_raises faults file folder_id n r log i e :
  found_file folder_id n r = Some i → i ≠ "" →
  faults (length log) = None →
  faults (S (length log)) = None →
  faults (S (S (length log))) = Some e →
  upload_file_to_drive faults file folder_id n (r, log) =
    (Raise e,
     ({| drive := delete_id i (drive r); sheet := sheet r |},
      log ++ [CFileList folder_id n; CFileDelete i; CFileCreate folder_id n file])).
Proof.
  intros Hfound Hi H0 H1 H2.
  rewrite (runs_upload faults file folder_id n r log).
  unfold exec, upload_calls. rewrite Hfound.
  assert (truthy (Some i) = true) as -> by by destruct i.
  cbn [exec_calls app default from_option id]. rewrite H0.
  rewrite !length_app. cbn [length]. rewrite !Nat.add_1_r, H1, H2.
  by rewrite <- !app_assoc.
Qed.

Lemma x6_upload_then_lookup_witness :
  ∃ i,
    upload_link "F1" (f_name (old_file "a")) one_remote = file_link i
    ∧ found_file "F1" (f_name (old_file "a"))
        (replay (upload_calls "F1" (f_name (old_file "a")) (demo_file "id.pdf")
                   one_remote) one_remote) = Some i
    ∧ filter (fun f => is_file_named "F1" (f_name (old_file "a")) f)
        (drive (replay (upload_calls "F1" (f_name (old_file "a"))
                          (demo_file "id.pdf") one_remote) one_remote))
      = [ {| f_id := i; f_name := f_name (old_file "a");
             f_mime := mimetype (demo_file "id.pdf");
             f_parents := ["F1"]; f_trashed := false;
             f_bytes := stream (demo_file "id.pdf") |} ]
    ∧ sheet (replay (upload_calls "F1" (f_name (old_file "a")) (demo_file "id.pdf")
                       one_remote) one_remote) = sheet one_remote.
Proof.
  apply (upload_then_lookup no_faults (demo_file "id.pdf") "F1"
           (f_name (old_file "a")) one_remote []
           (upload_link "F1" (f_name (old_file "a")) one_remote)
           (replay (upload_calls "F1" (f_name (old_file "a")) (demo_file "id.pdf")
                      one_remote) one_remote)
           ([] ++ upload_calls "F1" (f_name (old_file "a")) (demo_file "id.pdf")
                    one_remote)).
  - vm_compute. reflexivity.
  - vm_compute. reflexivity.
  - split; [|repeat constructor; discriminate].
    apply (bool_decide_unpack _). vm_compute. exact I.
  - vm_compute. repeat constructor.
  - vm_compute. reflexivity.
Defined.

Lemma x7_upload_keeps_others_witness :
  demo_folder
  ∈ drive (replay (upload_calls "F1" (f_name (old_file "a")) (demo_file "id.pdf")
                     one_remote) one_remote).
Proof.
  apply (upload_keeps_others no_faults (demo_file "id.pdf") "F1"
           (f_name (old_file "a")) one_remote []
           (upload_link "F1" (f_name (old_file "a")) one_remote)
           (replay (upload_calls "F1" (f_name (old_file "a")) (demo_file "id.pdf")
                      one_remote) one_remote)
           ([] ++ upload_calls "F1" (f_name (old_file "a")) (demo_file "id.pdf")
                    one_remote)
           demo_folder).
  - vm_compute. reflexivity.
  - vm_compute. reflexivity.
  - split; [|repeat constructor; discriminate].
    apply (bool_decide_unpack _). vm_compute. exact I.
  - intros i h Hi Hh. vm_compute in Hi. injection Hi as <-.
    unfold one_remote, drive in Hh.
    apply elem_of_cons in Hh as [->|Hh];
      [|apply elem_of_cons in Hh as [->|Hh]; [|by apply elem_of_nil in Hh]];
      vm_compute; intros H; repeat (apply elem_of_cons in H as [H|H]; [discriminate H|]);
      by apply elem_of_nil in H.
  - vm_compute. reflexivity.
  - vm_compute. apply list_elem_of_here.
  - left. vm_compute. discriminate.
Defined.

Lemma x8_upload_create_raises_witness :
  upload_file_to_drive fault_at_2 (demo_file "id.pdf") "F1" (f_name (old_file "a"))
    (one_remote, []) =
    (Raise "HttpError 503",
     ({| drive := delete_id "a" (drive one_remote); sheet := sheet one_remote |},
      [] ++ [ CFileList "F1" (f_name (old_file "a")); CFileDelete "a";
              CFileCreate "F1" (f_name (old_file "a")) (demo_file "id.pdf") ])).
Proof.
  apply (upload_create_raises fault_at_2 (demo_file "id.pdf") "F1"
           (f_name (old_file "a")) one_remote [] "a" "HttpError 503").
  - vm_compute. reflexivity.
  - discriminate.
  - reflexivity.
  - reflexivity.
  - reflexivity.
Defined.

(** ** The handler, once more *)

Lemma submit_calls_before_append now sub r :
  ∃ pre, submit_calls now sub r
         = pre ++ [CSheetAppend (row_of now (fields sub) (submit_links sub r))]
         ∧ Forall drive_call pre.
Proof.
  exists (folder_calls (make_folder_name (fields sub)) r
          ++ slots_calls sub (make_folder_name (fields sub))
               (resolved_folder (make_folder_name (fields sub)) r) SLOTS
               (replay (folder_calls (make_folder_name (fields sub)) r) r)
          ++ [CBuild "sheets"]).
  split; [unfold submit_calls; by rewrite <- !app_assoc|].
  apply Forall_app. split; [apply folder_calls_drive|].
  apply Forall_app. split; [apply slots_calls_drive|]. by repeat constructor.
Qed.

Lemma before_last {A} (done rest pre : list A) c x :
  done ++ c :: rest = pre ++ [x] → ∃ rest', pre = done ++ rest'.
Proof.
  destruct rest as [|y rest _] using rev_ind.
  - intros [-> _]%app_inj_tail. exists []. by rewrite app_nil_r.
  - rewrite app_comm_cons, app_assoc. intros [<- _]%app_inj_tail. eauto.
Qed.

(** X9: the sheet changes only when the request succeeds: a request
    answered 400 or 500 leaves the sheet as it was, and one answered 200 has
    added the row of its fields and links at the end. *)
Theorem sheet_written_on_success_only faults now sub r :
  let '(resp, r', log) := handle_submit faults now sub r in
  match resp.1 with
  | JSuccess links => sheet r' = sheet r ++ [row_of now (fields sub) links]
  | JError _ => sheet r' = sheet r
  end.
Proof.
  rewrite handle_submit_exec. case_bool_decide as Hm; cbn [negb]; [|done].
  destruct (submit_calls_before_append now sub r) as (pre & Hcs & Hpre).
  destruct (exec_calls _ _ _ _) as [[e|] [r1 log1]] eqn:E; cbn [fst].
  - apply exec_calls_raise in E as (done & c & rest & Hsplit & -> & _ & _).
    rewrite Hcs in Hsplit. symmetry in Hsplit.
    apply before_last in Hsplit as [rest' ->].
    apply Forall_app in Hpre as [Hdone _]. by apply replay_drive_calls.
  - apply exec_calls_ok in E as [-> _]. rewrite Hcs, replay_app.
    change (replay [CSheetAppend ?row] ?r0)
      with {| drive := drive r0; sheet := sheet r0 ++ [row] |}.
    cbn [sheet]. by rewrite replay_drive_calls.
Qed.

Lemma exec_calls_raise_first faults cs r log e r' log' :
  exec_calls faults cs r log = (Some e, (r', log')) →
  ∃ done c,
    log' = log ++ done ++ [c]
    ∧ faults (length (log ++ done)) = Some e
    ∧ ∀ m, (length log ≤ m < length (log ++ done))%nat → faults m = None.
Proof.
  revert r log. induction cs as [|c cs IH]; intros r log; simpl; [done|].
  destruct (faults (length log)) as [e'|] eqn:Hf.
  - intros [= <- <- <-]. exists [], c. rewrite app_nil_r. split_and!; try done.
    intros m Hm. lia.
  - intros (done & c' & -> & Hf' & Hbefore)%IH.
    exists (c :: done), c'. rewrite <- !app_assoc in *. split_and!; try done.
    intros m Hm. destruct (decide (m = length log)) as [->|]; [done|].
    apply Hbefore. rewrite !length_app in *. cbn [length] in *. lia.
Qed.

(** X10: the handler stops at the first exception.  When it answers 500,
    the call that raised is the last one of the log, every call before it
    completed, and the message is the text of that first exception. *)
Theorem stops_at_first_exception faults now sub r e r' log :
  handle_submit faults now sub r = ((JError e, 500), r', log) →
  ∃ n, length log = S n ∧ faults n = Some e
       ∧ ∀ m, (m < n)%nat → faults m = None.
Proof.
  rewrite handle_submit_exec. case_bool_decide as Hm; cbn [negb]; [|done].
  destruct (exec_calls _ _ _ _) as [[e'|] [r1 log1]] eqn:E; [|done].
  apply exec_calls_raise_first in E as (done & c & -> & Hf & Hbefore).
  intros [= <- <- <-]. exists (length done). cbn [app] in *.
  rewrite length_app. cbn [length]. split_and!; [lia|done|].
  intros m Hlt. apply Hbefore. cbn [length]. lia.
Qed.

Lemma x10_stops_at_first_exception_witness :
  ∃ n, length [ CBuild "drive"; CFolderList "Nelson_Denise_MBA_MSOHQ";
                CFolderCreate "Nelson_Denise_MBA_MSOHQ";
                CFileList (gen_id []) "Nelson_Denise_MBA_MSOHQ-nationalID.pdf" ]
       = S n
       ∧ fault_at_3 n = Some "HttpError 503"
       ∧ ∀ m, (m < n)%nat → fault_at_3 m = None.
Proof.
  apply (stops_at_first_exception fault_at_3 demo_now demo_sub empty_remote
           "HttpError 503"
           {| drive := [new_folder [] "Nelson_Denise_MBA_MSOHQ"]; sheet := [] |}).
  vm_compute. reflexivity.
Defined.

Lemma file_link_nonempty i : file_link i ≠ "".
Proof. unfold file_link. by apply string_app_nonempty. Qed.

Lemma slot_upload_None sub key k :
  slot_upload sub key k = None ↔ file_truthy (files sub !! k) = false.
Proof.
  unfold slot_upload, file_truthy. destruct (files sub !! k) as [file|]; [|done].
  by destruct (truthy (Some (filename file))).
Qed.

Lemma slots_links_uploaded sub key folder_id ks links r k n file :
  slot_upload sub key k = Some (n, file) →
  k ∈ ks ∨ (∃ i, links !! k = Some (file_link i)) →
  ∃ i, slots_links sub key folder_id ks links r !! k = Some (file_link i).
Proof.
  intros Hup. revert links r. induction ks as [|k' ks IH]; intros links r Hk; simpl.
  - destruct Hk as [Hk|Hk]; [by apply not_elem_of_nil in Hk|done].
  - apply IH. destruct (decide (k' = k)) as [->|Hne].
    + right. rewrite lookup_insert_eq. unfold slot_link, upload_link.
      rewrite Hup. eauto.
    + destruct Hk as [Hk|Hk].
      * apply elem_of_cons in Hk as [?|?]; [congruence|by left].
      * right. by rewrite lookup_insert_ne.
Qed.

(** X11: in a request that succeeds, the link of a slot is the empty string
    exactly when the request has no file for the slot or a file without a
    file name; otherwise it is the sharing address of a file identifier. *)
Theorem link_empty_iff faults now sub r links r' log k :
  handle_submit faults now sub r = ((JSuccess links, 200), r', log) →
  k ∈ SLOTS →
  (links !! k = Some "" ↔ file_truthy (files sub !! k) = false)
  ∧ (file_truthy (files sub !! k) = true →
     ∃ i, links !! k
          = Some ("https://drive.google.com/file/d/" +:+ i +:+ "/view?usp=sharing")).
Proof.
  intros (_ & -> & _ & _)%handle_submit_success Hk.
  set (key := make_folder_name (fields sub)).
  assert (Hup : file_truthy (files sub !! k) = true →
                ∃ i, submit_links sub r !! k = Some (file_link i)).
  { intros Ht. destruct (slot_upload sub key k) as [[n file]|] eqn:E.
    - eapply slots_links_uploaded; [exact E|by left].
    - apply slot_upload_None in E. congruence. }
  split; [|exact Hup]. split.
  - intros Hl. destruct (file_truthy (files sub !! k)) eqn:Ht; [|done].
    destruct (Hup eq_refl) as [i Hi]. rewrite Hi in Hl.
    injection Hl as Hl. by apply file_link_nonempty in Hl.
  - intros Ht. apply slots_links_blank; [by apply slot_upload_None|by left].
Qed.

Lemma x11_link_empty_iff_witness :
  (demo_links !! "transcript2" = Some ""
   ↔ file_truthy (files demo_sub !! "transcript2") = false)
  ∧ (file_truthy (files demo_sub !! "transcript2") = true →
     ∃ i, demo_links !! "transcript2"
          = Some ("https://drive.google.com/file/d/" +:+ i +:+ "/view?usp=sharing")).
Proof.
  apply (link_empty_iff no_faults demo_now demo_sub empty_remote
           demo_links demo_final demo_log "transcript2").
  - vm_compute. reflexivity.
  - unfold SLOTS. in_list.
Defined.

Lemma file_creates_app cs1 cs2 :
  file_creates (cs1 ++ cs2) = file_creates cs1 ++ file_creates cs2.
Proof. apply omap_app. Qed.

Lemma file_creates_upload folder_id n file r :
  file_creates (upload_calls folder_id n file r) = [(folder_id, n, file)].
Proof.
  unfold upload_calls. change (CFileList folder_id n :: ?l) with ([CFileList folder_id n] ++ l).
  rewrite !file_creates_app. by destruct (truthy _).
Qed.

Lemma file_creates_slots sub key folder_id ks r :
  file_creates (slots_calls sub key folder_id ks r)
  = omap (fun k => (fun nf => (folder_id, nf.1, nf.2)) <$> slot_upload sub key k) ks.
Proof.
  revert r. induction ks as [|k ks IH]; intros r; [done|].
  cbn [slots_calls omap list_omap]. rewrite file_creates_app, IH.
  unfold slot_calls. destruct (slot_upload sub key k) as [[n file]|]; [|done].
  by rewrite file_creates_upload.
Qed.

(** X12: a request that succeeds creates exactly one file for every slot it
    uploads, in the order of the slots, in the folder of the request and
    under the target name of the slot, and no other file. *)
Theorem one_file_per_uploaded_slot faults now sub r links r' log :
  handle_submit faults now sub r = ((JSuccess links, 200), r', log) →
  file_creates log =
  omap (fun k =>
          match files sub !! k with
          | Some file =>
              if truthy (Some (filename file))
              then Some (resolved_folder (make_folder_name (fields sub)) r,
                         target_filename sub (make_folder_name (fields sub)) k file,
                         file)
              else None
          | None => None
          end) SLOTS.
Proof.
  intros (_ & _ & -> & _)%handle_submit_success.
  unfold submit_calls. rewrite !file_creates_app, file_creates_slots.
  assert (file_creates (folder_calls (make_folder_name (fields sub)) r) = []) as ->.
  { unfold folder_calls. by destruct (negb _). }
  cbn [app]. rewrite app_nil_r.
  apply list_omap_ext, Forall_Forall2_diag, Forall_forall.
  intros k _. unfold slot_upload. destruct (files sub !! k) as [file|]; [|done].
  by destruct (truthy (Some (filename file))).
Qed.

Lemma x12_one_file_per_uploaded_slot_witness :
  file_creates demo_log =
  omap (fun k =>
          match files demo_sub !! k with
          | Some file =>
              if truthy (Some (filename file))
              then Some (resolved_folder (make_folder_name (fields demo_sub))
                           empty_remote,
                         target_filename demo_sub
                           (make_folder_name (fields demo_sub)) k file,
                         file)
              else None
          | None => None
          end) SLOTS.
Proof.
  apply (one_file_per_uploaded_slot no_faults demo_now demo_sub empty_remote
           demo_links demo_final demo_log).
  vm_compute. reflexivity.
Defined.

(** ** Two requests in a row *)

(** X13: in a store whose identifiers are distinct, not empty and without
    quote or backslash, and where no object is its own parent, when a
    submission whose folder name and upload names hold no quote and no
    backslash succeeds and the same submission succeeds again, the second
    request uses the folder of the first, creates no folder, and every name
    it uploads, if at most one file of the folder had it at the start, is
    the name of exactly one file of the folder after the first request and
    after the second. *)
Theorem resubmission_replaces
    faults1 now1 faults2 now2 sub r0 links1 r1 log1 links2 r2 log2 k file :
  query_safe (make_folder_name (fields sub)) = true →
  safe_uploads sub = true →
  wf_drive (drive r0) → acyclic1 (drive r0) →
  handle_submit faults1 now1 sub r0 = ((JSuccess links1, 200), r1, log1) →
  handle_submit faults2 now2 sub r1 = ((JSuccess links2, 200), r2, log2) →
  k ∈ SLOTS → files sub !! k = Some file → filename file ≠ "" →
  (count_named (resolved_folder (make_folder_name (fields sub)) r0)
     (target_filename sub (make_folder_name (fields sub)) k file)
     (drive r0) ≤ 1)%nat →
  resolved_folder (make_folder_name (fields sub)) r1
  = resolved_folder (make_folder_name (fields sub)) r0
  ∧ folder_creates log2 = []
  ∧ count_named (resolved_folder (make_folder_name (fields sub)) r0)
      (target_filename sub (make_folder_name (fields sub)) k file)
      (drive r1) = 1%nat
  ∧ count_named (resolved_folder (make_folder_name (fields sub)) r0)
      (target_filename sub (make_folder_name (fields sub)) k file)
      (drive r2) = 1%nat.
Proof.
  intros Hkey Hsafe Hwf Hac Hrun1 Hrun2 Hk Hf Hn Hle.
  pose proof (fun k0 m file0 (Hk0 : k0 ∈ SLOTS) Hup =>
                safe_uploads_slot sub k0 m file0 Hsafe Hk0 Hup) as Hnames.
  set (key := make_folder_name (fields sub)) in *.
  set (F := resolved_folder key r0) in *.
  set (n := target_filename sub key k file) in *.
  set (ra := replay (folder_calls key r0) r0).
  pose proof (slot_upload_Some sub key k file Hf Hn) as Hup. fold n in Hup.
  assert (HFsafe : query_safe F = true) by (by apply resolved_folder_safe).
  (* the first request *)
  assert (Hres1 : resolves_to key F r1).
  { pose proof Hrun1 as (_ & _ & Hlog & ->)%handle_submit_success.
    destruct (submit_calls_keep now1 sub r0 Hsafe) as (up & Hcs & Hkeep).
    rewrite Hlog, Hcs, replay_app.
    apply resolves_to_calls; [by apply resolves_to_folder_step|done]. }
  destruct (slots_count sub key F n SLOTS ra HFsafe Hnames) as (Hwf1 & _ & _ & Hone1).
  { by apply wf_folder_step. }
  { unfold ra, F. by rewrite count_folder_step. }
  pose proof (success_drive _ _ _ _ _ _ _ Hrun1) as Hd1.
  fold key in Hd1. fold F in Hd1. fold ra in Hd1.
  rewrite <- Hd1 in Hwf1, Hone1.
  assert (H1 : count_named F n (drive r1) = 1%nat) by (by eapply Hone1).
  (* the second request *)
  destruct (folder_calls_found key F r1 Hres1) as [Hfc HF].
  pose proof (success_drive _ _ _ _ _ _ _ Hrun2) as Hd2.
  fold key in Hd2. rewrite Hfc, HF in Hd2.
  change (replay [CBuild "drive"; CFolderList key] r1) with r1 in Hd2.
  destruct (slots_count sub key F n SLOTS r1 HFsafe Hnames Hwf1)
    as (_ & _ & Hkeep2 & _); [lia|].
  split_and!; [done| |done|].
  - pose proof Hrun2 as (_ & _ & -> & _)%handle_submit_success.
    destruct (submit_calls_keep now2 sub r1 Hsafe) as (up & Hcs & Hkeep).
    fold key in Hcs, Hkeep.
    rewrite Hcs, Hfc. unfold folder_creates. rewrite omap_app.
    destruct (keep_to_quiet _ _ _ Hkeep) as [Hq _]. unfold folder_creates in Hq.
    by rewrite Hq.
  - rewrite Hd2. by apply Hkeep2.
Qed.

Lemma x13_resubmission_replaces_witness :
  resolved_folder (make_folder_name (fields demo_sub)) demo_final
  = resolved_folder (make_folder_name (fields demo_sub)) empty_remote
  ∧ folder_creates (submit_calls demo_now demo_sub demo_final) = []
  ∧ count_named (resolved_folder (make_folder_name (fields demo_sub)) empty_remote)
      (target_filename demo_sub (make_folder_name (fields demo_sub)) "nationalID"
         (demo_file "id.pdf"))
      (drive demo_final) = 1%nat
  ∧ count_named (resolved_folder (make_folder_name (fields demo_sub)) empty_remote)
      (target_filename demo_sub (make_folder_name (fields demo_sub)) "nationalID"
         (demo_file "id.pdf"))
      (drive (replay (submit_calls demo_now demo_sub demo_final) demo_final))
    = 1%nat.
Proof.
  apply (resubmission_replaces no_faults demo_now no_faults demo_now demo_sub
           empty_remote demo_links demo_final demo_log
           (submit_links demo_sub demo_final)
           (replay (submit_calls demo_now demo_sub demo_final) demo_final)
           (submit_calls demo_now demo_sub demo_final)
           "nationalID" (demo_file "id.pdf")).
  - vm_compute. reflexivity.
  - vm_compute. reflexivity.
  - split; [apply NoDup_nil_2|apply Forall_nil_2].
  - apply Forall_nil_2.
  - vm_compute. reflexivity.
  - vm_compute. reflexivity.
  - unfold SLOTS. in_list.
  - vm_compute. reflexivity.
  - vm_compute. discriminate.
  - vm_compute. repeat constructor.
Defined.

(** ** The folder after a request *)

(** X15: in a store whose identifiers are distinct, not empty and without
    quote or backslash, and where no object is its own parent, after a
    request that succeeds, whose folder name and upload names hold no quote
    and no backslash, the folder of the request is in the store: an object
    with the identifier that every upload of the request was made under,
    named by the folder key, with the folder MIME type, under the root and
    not trashed. *)
Theorem folder_exists_after faults now sub r links r' log :
  query_safe (make_folder_name (fields sub)) = true →
  safe_uploads sub = true →
  wf_drive (drive r) → acyclic1 (drive r) →
  handle_submit faults now sub r = ((JSuccess links, 200), r', log) →
  ∃ h, h ∈ drive r'
       ∧ f_id h = resolved_folder (make_folder_name (fields sub)) r
       ∧ (∀ fo n file, CFileCreate fo n file ∈ log → fo = f_id h)
       ∧ f_name h = make_folder_name (fields sub)
       ∧ f_mime h = FOLDER_MIME
       ∧ BASE_DRIVE_FOLDER_ID ∈ f_parents h
       ∧ f_trashed h = false.
Proof.
  intros Hkey Hsafe Hwf Hac Hrun.
  set (key := make_folder_name (fields sub)) in *.
  pose proof Hrun as (_ & _ & Hlog & Hr')%handle_submit_success.
  destruct (submit_calls_keep now sub r Hsafe) as (up & Hcs & Hkeep).
  fold key in Hcs, Hkeep.
  assert (Hres : resolves_to key (resolved_folder key r) r').
  { rewrite Hr', Hlog, Hcs, replay_app.
    apply resolves_to_calls; [by apply resolves_to_folder_step|done]. }
  destruct (resolves_to_folder _ _ _ Hres) as (h & rest & Hfil & Hid & Hh & Hroot).
  assert (h ∈ filter (fun f => is_folder_named key f) (drive r'))
    as [Hnamed _]%list_elem_of_filter by (rewrite Hfil; left).
  unfold is_folder_named in Hnamed. apply Is_true_true in Hnamed.
  rewrite !andb_true_iff, !bool_decide_eq_true, negb_true_iff in Hnamed.
  exists h. split_and!; try tauto.
  intros fo n file Hin. rewrite Hid.
  rewrite Hlog, Hcs in Hin. apply elem_of_app in Hin as [Hin|Hin].
  - unfold folder_calls in Hin. destruct (negb _);
      repeat (apply elem_of_cons in Hin as [Hin|Hin]; [discriminate Hin|]);
      by apply elem_of_nil in Hin.
  - destruct (keep_to_quiet _ _ _ Hkeep) as [_ Hq]. by eapply Hq.
Qed.

Lemma x15_folder_exists_after_witness :
  ∃ h, h ∈ drive demo_final
       ∧ f_id h = resolved_folder (make_folder_name (fields demo_sub)) empty_remote
       ∧ (∀ fo n file, CFileCreate fo n file ∈ demo_log → fo = f_id h)
       ∧ f_name h = make_folder_name (fields demo_sub)
       ∧ f_mime h = FOLDER_MIME
       ∧ BASE_DRIVE_FOLDER_ID ∈ f_parents h
       ∧ f_trashed h = false.
Proof.
  apply (folder_exists_after no_faults demo_now demo_sub empty_remote
           demo_links demo_final demo_log).
  - vm_compute. reflexivity.
  - vm_compute. reflexivity.
  - split; [apply NoDup_nil_2|apply Forall_nil_2].
  - apply Forall_nil_2.
  - vm_compute. reflexivity.
Defined.

(** X16: a required name for which the request carries a file part with an
    empty file name, and no form value that is not empty, is reported as
    missing: the empty file part does not count as a file. *)
Theorem empty_file_part_is_missing faults now sub r k file :
  k ∈ required →
  truthy (fields sub !! k) = false →
  files sub !! k = Some file → filename file = "" →
  k ∈ missing sub
  ∧ handle_submit faults now sub r =
      ((JError ("Missing required fields: " +:+ PyStr.repr_list (missing sub)), 400),
       r, []).
Proof.
  intros Hk Hf Hfile Hname.
  assert (Hin : k ∈ missing sub).
  { apply elem_of_missing. left. split_and!; [done|done|].
    unfold file_truthy. by rewrite Hfile, Hname. }
  split; [done|]. apply validation_rejects. intros Hnil.
  rewrite Hnil in Hin. by apply not_elem_of_nil in Hin.
Qed.

Lemma x16_empty_file_part_is_missing_witness :
  "transcript1" ∈ missing empty_part_sub
  ∧ handle_submit no_faults demo_now empty_part_sub empty_remote =
      ((JError ("Missing required fields: "
                +:+ PyStr.repr_list (missing empty_part_sub)), 400),
       empty_remote, []).
Proof.
  apply (empty_file_part_is_missing no_faults demo_now empty_part_sub empty_remote
           "transcript1" (demo_file "")).
  - unfold required. in_list.
  - vm_compute. reflexivity.
  - vm_compute. reflexivity.
  - reflexivity.
Defined.

(** X17: an upload whose lookup raises, or whose deletion of the file found
    raises, raises that exception and leaves the stores as they were. *)
Theorem upload_raises_early faults file folder_id n r log e :
  faults (length log) = Some e
  ∨ (faults (length log) = None
     ∧ truthy (found_file folder_id n r) = true
     ∧ faults (S (length log)) = Some e) →
  ∃ log', upload_file_to_drive faults file folder_id n (r, log) = (Raise e, (r, log')).
Proof.
  intros H. rewrite (runs_upload faults file folder_id n r log).
  unfold exec, upload_calls. cbn [exec_calls].
  destruct H as [->|(-> & -> & H1)]; [eauto|].
  cbn [app exec_calls apply_call]. rewrite length_app. cbn [length].
  rewrite Nat.add_1_r, H1. eauto.
Qed.

Lemma x17_upload_raises_early_witness :
  ∃ log', upload_file_to_drive fault_at_3 (demo_file "id.pdf") "F1"
            (f_name (old_file "a")) (one_remote, [CBuild "drive"; CFolderList "k"])
          = (Raise "HttpError 503", (one_remote, log')).
Proof.
  apply (upload_raises_early fault_at_3 (demo_file "id.pdf") "F1"
           (f_name (old_file "a")) one_remote [CBuild "drive"; CFolderList "k"]).
  right. split_and!; reflexivity.
Defined.
